(** * AndroidPermissions: the annotation scanner of [parser.py]

    A shallow embedding of [src/parser.py] and the properties of its
    declaration scanner, signature builder, marker extractors,
    documentation miner and unit gate.

    Python objects are rendered by the type [value]; a syntax-tree node
    of the external parser keeps its class, the names of its attributes
    ([attrs]) and their values ([children]), which is how the parser's
    [Node] base class exposes them.  Code that can raise returns in the
    monad [M], which also threads the trace of console/debugger events
    ([print], [breakpoint]).  The list [qualifier] is a mutable Python
    list shared between the recursive calls of [son_of_a_class]; the
    embedding keeps the list object handed in by the caller apart from a
    list the frame may have rebound the variable to. *)

From Stdlib Require Import String Ascii List ZArith Lia Bool.
Import ListNotations.
Open Scope string_scope.
Open Scope list_scope.

Set Implicit Arguments.

(** ** Python strings *)

Module PyStr.

(** [t in s] / the scan used by [s.find(t)]: is [t] a prefix of [s]. *)
Fixpoint starts_with (t s : string) : bool :=
  match t, s with
  | EmptyString, _ => true
  | String a t', String b s' => Ascii.eqb a b && starts_with t' s'
  | String _ _, EmptyString => false
  end.

(** [s.find(t)], counting from offset [i]: the lowest index at which
    [t] occurs, or [-1]. *)
Fixpoint find_from (i : Z) (s t : string) : Z :=
  if starts_with t s then i
  else match s with
       | EmptyString => (-1)%Z
       | String _ s' => find_from (i + 1) s' t
       end.

Definition find (s t : string) : Z := find_from 0 s t.


(** [s[n:]] for a non-negative [n]. *)
Fixpoint drop (n : nat) (s : string) : string :=
  match n, s with
  | O, _ => s
  | S n', String _ s' => drop n' s'
  | S _, EmptyString => EmptyString
  end.

Definition slice_from (i : Z) (s : string) : string := drop (Z.to_nat i) s.

(** [s.split(sep)] for a one-character separator: never an empty list. *)
Fixpoint split (sep : ascii) (s : string) : list string :=
  match s with
  | EmptyString => [EmptyString]
  | String c s' =>
      if Ascii.eqb c sep then EmptyString :: split sep s'
      else match split sep s' with
           | [] => [String c EmptyString]
           | h :: rest => String c h :: rest
           end
  end.

(** [s.replace(c, "")] for a one-character [c]. *)
Fixpoint remove_char (c : ascii) (s : string) : string :=
  match s with
  | EmptyString => EmptyString
  | String a s' =>
      if Ascii.eqb a c then remove_char c s' else String a (remove_char c s')
  end.

(** [str.isspace] on one character; code points below 256. *)
Definition is_space (c : ascii) : bool :=
  let n := nat_of_ascii c in
  (((9 <=? n) && (n <=? 13)) || ((28 <=? n) && (n <=? 32))
   || (n =? 133) || (n =? 160))%nat.

Fixpoint lstrip (s : string) : string :=
  match s with
  | EmptyString => EmptyString
  | String c s' => if is_space c then lstrip s' else s
  end.

Fixpoint rstrip (s : string) : string :=
  match s with
  | EmptyString => EmptyString
  | String c s' =>
      match rstrip s' with
      | EmptyString => if is_space c then EmptyString else String c EmptyString
      | r => String c r
      end
  end.

(** [s.strip()]. *)
Definition strip (s : string) : string := rstrip (lstrip s).

(** [sep.join(parts)] for parts that are strings. *)
Fixpoint join (sep : string) (parts : list string) : string :=
  match parts with
  | [] => EmptyString
  | [p] => p
  | p :: rest => (p ++ sep ++ join sep rest)%string
  end.

End PyStr.

(** ** Python values and syntax-tree nodes *)

(** The classes [son_of_a_class] tests with [isinstance]; every other
    node class of the parser is an [OtherNode]. *)
Inductive node_class : Type :=
| PackageDeclaration
| ClassDeclaration
| MethodDeclaration
| FieldDeclaration
| MethodInvocation
| OtherNode (cls : string).

#[warnings="-register-all"]
Inductive value : Type :=
| VNone
| VBool (b : bool)
| VInt (z : Z)
| VStr (s : string)
| VSet (elems : list string)
| VList (elems : list value)
| VNode (cls : node_class) (attrs : list string) (children : list value).

Definition node_class_eqb (a b : node_class) : bool :=
  match a, b with
  | PackageDeclaration, PackageDeclaration
  | ClassDeclaration, ClassDeclaration
  | MethodDeclaration, MethodDeclaration
  | FieldDeclaration, FieldDeclaration
  | MethodInvocation, MethodInvocation => true
  | OtherNode x, OtherNode y => String.eqb x y
  | _, _ => false
  end.

(** [isinstance(v, C)] for a node class [C]. *)
Definition isinstance (v : value) (c : node_class) : bool :=
  match v with
  | VNode cls _ _ => node_class_eqb cls c
  | _ => false
  end.

(** [isinstance(v, list)]. *)
Definition is_list (v : value) : bool :=
  match v with VList _ => true | _ => false end.

(** ** Exceptions, events and the monad *)

Inductive exn : Type :=
| AttributeError (attr : string)
| TypeError
| IndexError
| Unrendered.   (* a Python behaviour this embedding does not render:
                   [str()] of a value that is not a string, the
                   tuples got by iterating over a node *)

(** What the scan shows on the console or to the debugger. *)
Inductive event : Type :=
| Printed (line : string)
| Breakpoint.

Definition trace := list event.

Definition M (A : Type) : Type := trace -> trace * (exn + A).

Definition ret {A} (a : A) : M A := fun tr => (tr, inr a).
Definition raise {A} (e : exn) : M A := fun tr => (tr, inl e).
Definition bind {A B} (m : M A) (k : A -> M B) : M B :=
  fun tr => match m tr with
            | (tr', inl e) => (tr', inl e)
            | (tr', inr a) => k a tr'
            end.
Definition emit (e : event) : M unit := fun tr => (tr ++ [e], inr tt).

Notation "x <- m ;; k" := (bind m (fun x => k))
  (at level 61, m at next level, right associativity).
Notation "' pat <- m ;; k" := (bind m (fun x => match x with pat => k end))
  (at level 61, pat pattern, m at next level, right associativity).
Notation "m ;;; k" := (bind m (fun _ => k))
  (at level 61, right associativity).

(** [for x in xs: body], threading what the body updates. *)
Section ForEach.
Variables (A S : Type) (body : A -> S -> M S).

Fixpoint for_each (xs : list A) (s : S) : M S :=
  match xs with
  | [] => ret s
  | x :: rest => s' <- body x s ;; for_each rest s'
  end.
End ForEach.

(** ** Python primitives on values *)

(** The value stored under [name], when [name] is among [attrs]. *)
Fixpoint lookup_attr (name : string) (attrs : list string) (vals : list value)
  : option value :=
  match attrs, vals with
  | a :: attrs', v :: vals' =>
      if String.eqb a name then Some v else lookup_attr name attrs' vals'
  | _, _ => None
  end.

(** The attribute [name] of [v], when [v] has it: only nodes have the
    attributes this program reads. *)
Definition attribute (v : value) (name : string) : option value :=
  match v with
  | VNode _ attrs vals => lookup_attr name attrs vals
  | _ => None
  end.

(** [v.name]. *)
Definition getattr (v : value) (name : string) : M value :=
  match attribute v name with
  | Some x => ret x
  | None => raise (AttributeError name)
  end.

(** ["name" in v.attrs]. *)
Definition in_attrs (name : string) (v : value) : M bool :=
  match v with
  | VNode _ attrs _ => ret (existsb (String.eqb name) attrs)
  | _ => raise (AttributeError "attrs")
  end.

(** Truth value of an object; a node has neither [__bool__] nor
    [__len__] and is true. *)
Definition truthy (v : value) : bool :=
  match v with
  | VNone => false
  | VBool b => b
  | VInt z => negb (z =? 0)%Z
  | VStr s => negb (String.eqb s EmptyString)
  | VSet l => match l with [] => false | _ => true end
  | VList l => match l with [] => false | _ => true end
  | VNode _ _ _ => true
  end.

(** [len(v)]. *)
Definition py_len (v : value) : M nat :=
  match v with
  | VStr s => ret (String.length s)
  | VSet l => ret (List.length l)
  | VList l => ret (List.length l)
  | _ => raise TypeError
  end.

(** [v == s] for a string literal [s]. *)
Definition eq_str (v : value) (s : string) : bool :=
  match v with VStr t => String.eqb t s | _ => false end.

(** [a + b] where the right operand is a string. *)
Definition add_str (a : value) (b : string) : M string :=
  match a with VStr s => ret (s ++ b)%string | _ => raise TypeError end.

(** [a + b] where the left operand is a string. *)
Definition str_add (a : string) (b : value) : M string :=
  match b with VStr s => ret (a ++ s)%string | _ => raise TypeError end.

(** ["%s" % v]: only strings are rendered. *)
Definition percent_s (v : value) : M string :=
  match v with VStr s => ret s | _ => raise Unrendered end.

(** The items [for x in v] walks over.  Iterating a node walks its
    subtree and yields [(path, node)] tuples, which are not rendered. *)
Definition iterate (v : value) : M (list value) :=
  match v with
  | VList l => ret l
  | VSet l => ret (map VStr l)
  | VStr s => ret (map (fun c => VStr (String c EmptyString)) (list_ascii_of_string s))
  | VNode _ _ _ => raise Unrendered
  | _ => raise TypeError
  end.

(** [sep.join(items)]: every item has to be a string. *)
Fixpoint strings_of (items : list value) : M (list string) :=
  match items with
  | [] => ret []
  | VStr s :: rest => ss <- strings_of rest ;; ret (s :: ss)
  | _ :: _ => raise TypeError
  end.

Definition join_values (sep : string) (items : list value) : M string :=
  ss <- strings_of items ;; ret (PyStr.join sep ss).

(** [v += s] for a string [s]: a list is extended by the characters. *)
Definition iadd_str (v : value) (s : string) : M value :=
  match v with
  | VStr t => ret (VStr (t ++ s))
  | VList l =>
      ret (VList (l ++ map (fun c => VStr (String c EmptyString))
                           (list_ascii_of_string s)))
  | _ => raise TypeError
  end.

(** [v[0]] for a [v] of length one. *)
Definition getitem0 (v : value) : M value :=
  match v with
  | VList (x :: _) => ret x
  | VStr (String c _) => ret (VStr (String c EmptyString))
  | VList [] | VStr EmptyString => raise IndexError
  | _ => raise TypeError
  end.

(** [breakpoint()]: the debugger is entered and the program goes on
    when it is left. *)
Definition breakpoint : M unit := emit Breakpoint.

(** [print(line)]. *)
Definition print (line : string) : M unit := emit (Printed line).

(** ** The two records *)

Record RequiresPermission : Type := mkRequiresPermission {
  rp_name : value;
  rp_qualifier : string;
  rp_isMethod : bool;
  permissions : list string;
  needsAllOf : bool
}.

Record UnsupportedAppUsage : Type := mkUnsupportedAppUsage {
  ua_name : value;
  ua_qualifier : string;
  ua_isMethod : bool;
  minTargetSdk : value;
  maxTargetSdk : value;
  deprecationNote : string
}.

(** [RequiresPermission(name, qualifier, isMethod=...)]:
    [permissions=None] becomes a new empty list, [needsAllOf=False]. *)
Definition new_RequiresPermission (name : value) (qualifier : string)
    (isMethod : bool) : RequiresPermission :=
  mkRequiresPermission name qualifier isMethod [] false.

(** [UnsupportedAppUsage(name, qualifier, isMethod=...)]:
    [minTargetSdk=0], [maxTargetSdk=0], [deprecationNote=""]. *)
Definition new_UnsupportedAppUsage (name : value) (qualifier : string)
    (isMethod : bool) : UnsupportedAppUsage :=
  mkUnsupportedAppUsage name qualifier isMethod (VInt 0) (VInt 0) "".

Definition set_needsAllOf (t : RequiresPermission) (b : bool) :=
  mkRequiresPermission (rp_name t) (rp_qualifier t) (rp_isMethod t)
                       (permissions t) b.

Definition append_permission (t : RequiresPermission) (p : string) :=
  mkRequiresPermission (rp_name t) (rp_qualifier t) (rp_isMethod t)
                       (permissions t ++ [p]) (needsAllOf t).

Definition set_minTargetSdk (t : UnsupportedAppUsage) (v : value) :=
  mkUnsupportedAppUsage (ua_name t) (ua_qualifier t) (ua_isMethod t)
                        v (maxTargetSdk t) (deprecationNote t).

Definition set_maxTargetSdk (t : UnsupportedAppUsage) (v : value) :=
  mkUnsupportedAppUsage (ua_name t) (ua_qualifier t) (ua_isMethod t)
                        (minTargetSdk t) v (deprecationNote t).

Definition set_deprecationNote (t : UnsupportedAppUsage) (s : string) :=
  mkUnsupportedAppUsage (ua_name t) (ua_qualifier t) (ua_isMethod t)
                        (minTargetSdk t) (maxTargetSdk t) s.

(** What the scan returns: a list of either record. *)
Inductive record : Type :=
| Requires (r : RequiresPermission)
| Unsupported (u : UnsupportedAppUsage).

(** ** [get_name_and_qualifier] *)

(** ["%s %s" % (p.type.name, p.name)] for one parameter. *)
Definition render_parameter (p : value) (parameters : list string)
  : M (list string) :=
  ty <- getattr p "type" ;;
  tn <- getattr ty "name" ;;
  pn <- getattr p "name" ;;
  a <- percent_s tn ;;
  b <- percent_s pn ;;
  ret (parameters ++ [(a ++ " " ++ b)%string]).

(** [r.type.name], the item of the generator given to [", ".join]. *)
Definition argument_name (r : value) (names : list value) : M (list value) :=
  ty <- getattr r "type" ;;
  n <- getattr ty "name" ;;
  ret (names ++ [n]).

Definition get_name_and_qualifier (element : value) (qualifier : list value)
  : M (value * string) :=
  if isinstance element MethodDeclaration then
    has_parameters <- in_attrs "parameters" element ;;
    parameters <-
      (if has_parameters then
         ps <- getattr element "parameters" ;;
         n <- py_len ps ;;
         if (n =? 0)%nat then ret []
         else items <- iterate ps ;; for_each render_parameter items []
       else ret []) ;;
    has_return_type <- in_attrs "return_type" element ;;
    rt <- (if has_return_type then getattr element "return_type"
           else ret VNone) ;;
    return_type <-
      (if has_return_type && truthy rt then
         rn <- getattr rt "name" ;;
         has_arguments <- in_attrs "arguments" rt ;;
         args <- (if has_arguments then getattr rt "arguments"
                  else ret VNone) ;;
         if has_arguments && truthy args then
           items <- iterate args ;;
           names <- for_each argument_name items [] ;;
           joined <- join_values ", " names ;;
           iadd_str rn ("<" ++ joined ++ ">")
         else ret rn
       else ret VNone) ;;
    name <- getattr element "name" ;;
    path <- join_values "." qualifier ;;
    signature <-
      str_add (path ++ "(" ++ PyStr.join ", " parameters ++ ") -> ")
              (if truthy return_type then return_type else VStr "void") ;;
    ret (name, signature)
  else
    declarators <- getattr element "declarators" ;;
    n <- (if truthy declarators then py_len declarators else ret 0%nat) ;;
    if negb (truthy declarators) || (1 <? n)%nat then
      breakpoint ;;;
      ret (VStr "", "")
    else
      d0 <- getitem0 declarators ;;
      name <- getattr d0 "name" ;;
      path <- join_values "." (qualifier ++ [name]) ;;
      ty <- getattr element "type" ;;
      tn <- getattr ty "name" ;;
      signature <- str_add (path ++ " -> ") tn ;;
      ret (name, signature).

(** ** [parse_requirements] *)

(** [target.permissions.append(val.qualifier + "." + val.member)]. *)
Definition append_constant (val : value) (target : RequiresPermission)
  : M RequiresPermission :=
  q <- getattr val "qualifier" ;;
  s <- add_str q "." ;;
  m <- getattr val "member" ;;
  p <- str_add s m ;;
  ret (append_permission target p).

(** The body of [for elm in annotation.element]. *)
Definition requirement_element (elm : value) (target : RequiresPermission)
  : M RequiresPermission :=
  n <- getattr elm "name" ;;
  let target := set_needsAllOf target (eq_str n "allOf") in
  v <- getattr elm "value" ;;
  vs <- getattr v "values" ;;
  items <- iterate vs ;;
  for_each append_constant items target.

Definition parse_requirements (element annotation : value)
    (qualifier : list value) : M RequiresPermission :=
  '(name, element_qualifier) <- get_name_and_qualifier element qualifier ;;
  let target := new_RequiresPermission name element_qualifier
                  (isinstance element MethodDeclaration) in
  has_element <- in_attrs "element" annotation ;;
  e <- (if has_element then getattr annotation "element" else ret VNone) ;;
  if has_element && truthy e then
    match e with
    | VList elems => for_each requirement_element elems target
    | _ => append_constant e target
    end
  else ret target.

(** ** [parse_deprecation] *)

(** [if elm.name == "minTargetSdk" or elm.name == "maxTargetSdk":
       setattr(target, elm.name, elm.value.qualifier + "." + elm.value.member)]. *)
Definition usage_element (elm : value) (target : UnsupportedAppUsage)
  : M UnsupportedAppUsage :=
  n <- getattr elm "name" ;;
  if eq_str n "minTargetSdk" || eq_str n "maxTargetSdk" then
    v <- getattr elm "value" ;;
    q <- getattr v "qualifier" ;;
    s <- add_str q "." ;;
    m <- getattr v "member" ;;
    c <- str_add s m ;;
    ret (if eq_str n "minTargetSdk" then set_minTargetSdk target (VStr c)
         else set_maxTargetSdk target (VStr c))
  else ret target.

(** [x.replace("*", "").replace("/", "").strip()]. *)
Definition clean_line (x : string) : string :=
  PyStr.strip (PyStr.remove_char "/" (PyStr.remove_char "*" x)).

(** ["".join(clean(x) for x in documentation[deprecation_in_doc:].split("\n"))]. *)
Definition deprecation_doc_text (documentation : string)
    (deprecation_in_doc : Z) : string :=
  PyStr.join ""
    (map clean_line
         (PyStr.split "010" (PyStr.slice_from deprecation_in_doc documentation))).

(** Lines 125-129 on a documentation string: the note to assign, if
    one is assigned. *)
Definition mined_note (documentation : string) : option string :=
  let deprecation_in_doc := PyStr.find documentation "@deprecated" in
  if (0 <? deprecation_in_doc)%Z
  then Some (deprecation_doc_text documentation deprecation_in_doc)
  else None.

(** Lines 124-129. *)
Definition mine_documentation (element : value) (target : UnsupportedAppUsage)
  : M UnsupportedAppUsage :=
  doc <- getattr element "documentation" ;;
  n <- (if truthy doc then py_len doc else ret 0%nat) ;;
  if truthy doc && negb (n =? 0)%nat then
    match doc with
    | VStr d =>
        match mined_note d with
        | Some text => ret (set_deprecationNote target text)
        | None => ret target
        end
    | _ => raise (AttributeError "find")
    end
  else ret target.

Definition parse_deprecation (element annotation : value)
    (qualifier : list value) : M UnsupportedAppUsage :=
  '(name, element_qualifier) <- get_name_and_qualifier element qualifier ;;
  let target := new_UnsupportedAppUsage name element_qualifier
                  (isinstance element MethodDeclaration) in
  has_element <- in_attrs "element" annotation ;;
  e <- (if has_element then getattr annotation "element" else ret VNone) ;;
  target <-
    (if has_element && truthy e then
       match e with
       | VList elems => for_each usage_element elems target
       | _ => usage_element e target
       end
     else ret target) ;;
  mine_documentation element target.

(** ** [parse_element_annotations] and [parse_method_invocation] *)

Definition annotation_records (element : value) (qualifier : list value)
    (annotation : value) (partial : list record) : M (list record) :=
  n <- getattr annotation "name" ;;
  if eq_str n "UnsupportedAppUsage" then
    u <- parse_deprecation element annotation qualifier ;;
    ret (partial ++ [Unsupported u])
  else if eq_str n "RequiresPermission" then
    r <- parse_requirements element annotation qualifier ;;
    ret (partial ++ [Requires r])
  else ret partial.

Definition parse_element_annotations (element : value)
    (qualifier : list value) : M (list record) :=
  annotations <- getattr element "annotations" ;;
  n <- py_len annotations ;;
  if (n =? 0)%nat then ret []
  else
    items <- iterate annotations ;;
    for_each (annotation_records element qualifier) items [].

Definition parse_method_invocation (element : value)
    (qualifier : list value) : M (option record) :=
  m <- getattr element "member" ;;
  if eq_str m "enforceCallingOrSelfPermission" then
    print "ENFORCING" ;;;
    breakpoint ;;;
    ret None
  else ret None.

(** ** [son_of_a_class] *)

(** The variable [qualifier] of one call: the list object the caller
    passed, and the new list the variable names once a package
    declaration has been met ([qualifier = [child.name]]). *)
Record frame : Type := mkFrame {
  passed : list value;
  rebound : option (list value)
}.

Definition enter (qualifier : list value) : frame := mkFrame qualifier None.

(** The list [qualifier] names now. *)
Definition current (f : frame) : list value :=
  match rebound f with Some l => l | None => passed f end.

(** In-place update of the list [qualifier] names. *)
Definition update (f : frame) (l : list value) : frame :=
  match rebound f with
  | Some _ => mkFrame (passed f) (Some l)
  | None => mkFrame l None
  end.

(** [qualifier = [name]]. *)
Definition rebind (f : frame) (name : value) : frame :=
  mkFrame (passed f) (Some [name]).

(** [qualifier.append(name)]. *)
Definition push (f : frame) (name : value) : frame :=
  update f (current f ++ [name]).

(** [qualifier.pop()]. *)
Definition pop (f : frame) : M frame :=
  match current f with
  | [] => raise IndexError
  | l => ret (update f (removelast l))
  end.

Definition pushes (cls : node_class) : bool :=
  match cls with
  | ClassDeclaration | MethodDeclaration => true
  | _ => false
  end.

(** One turn of [for child in children], on the records gathered so
    far and the frame. *)
Fixpoint visit (child : value) (st : list record * frame) {struct child}
  : M (list record * frame) :=
  let '(partial, fr) := st in
  '(partial, fr) <-
    match child with
    | VNode PackageDeclaration _ _ =>
        n <- getattr child "name" ;;
        ret (partial, rebind fr n)
    | VNode ClassDeclaration _ _ =>
        n <- getattr child "name" ;;
        ret (partial, push fr n)
    | VNode MethodDeclaration _ _ =>
        n <- getattr child "name" ;;
        let fr := push fr n in
        found <- parse_element_annotations child (current fr) ;;
        ret (partial ++ found, fr)
    | VNode FieldDeclaration _ _ =>
        found <- parse_element_annotations child (current fr) ;;
        ret (partial ++ found, fr)
    | VNode MethodInvocation _ _ =>
        method_output <- parse_method_invocation child (current fr) ;;
        ret (match method_output with
             | Some r => partial ++ [r]
             | None => partial
             end, fr)
    | VList elems =>
        '(found, inner) <- for_each visit elems ([], enter (current fr)) ;;
        ret (partial ++ found, update fr (passed inner))
    | _ => ret (partial, fr)
    end ;;
  match child with
  | VNode cls _ (c :: cs) =>
      '(found, inner) <- for_each visit (c :: cs) ([], enter (current fr)) ;;
      let fr := update fr (passed inner) in
      if pushes cls then
        fr <- pop fr ;;
        ret (partial ++ found, fr)
      else ret (partial ++ found, fr)
  | _ => ret (partial, fr)
  end.

(** [son_of_a_class(children, qualifier)]: the records, and the frame
    the loop ends in. *)
Definition son_of_a_class (children qualifier : list value)
  : M (list record * frame) :=
  for_each visit children ([], enter qualifier).

(** ** [analyze] *)


(** [tree.children]. *)
Definition children_of (v : value) : M (list value) :=
  match v with
  | VNode _ _ children => ret children
  | _ => raise (AttributeError "children")
  end.

(** [son_of_a_class(tree.children, qualifier=[])]. *)
Definition scan_tree (tree : value) : M (list record * frame) :=
  children <- children_of tree ;;
  son_of_a_class children [].

Section Analyze.
(** The external tokenizer and parser: from the text of a unit to its
    tree, or an error. *)
Variable parse : string -> M value.

End Analyze.

(** ** The nodes of the external parser *)

Module Tree.

(** The node classes of the external parser library, which [parser.py]
    imports and this repository does not contain.  Each constructor
    lists the attributes that section 6 of the specification (the input
    contract) names for that kind of node, under the names [parser.py]
    reads them by, in the order the library declares them. *)

(** Modelled from the spec: the parser's node class for a compilation
    unit, with its package declaration (or [None]), imports and type
    declarations. *)
Definition CompilationUnit (package : value) (imports types : list value) :=
  VNode (OtherNode "CompilationUnit") ["package"; "imports"; "types"]
        [package; VList imports; VList types].

(** Modelled from the spec: the parser's node class for an import. *)
Definition Import (path : string) (static wildcard : bool) :=
  VNode (OtherNode "Import") ["path"; "static"; "wildcard"]
        [VStr path; VBool static; VBool wildcard].

(** Modelled from the spec: the parser's node class for the package
    declaration, with its [name]. *)
Definition Package (documentation : value) (annotations : value)
    (name : string) :=
  VNode PackageDeclaration
        ["modifiers"; "annotations"; "documentation"; "name"]
        [VNone; annotations; documentation; VStr name].

(** Modelled from the spec: the parser's node class for a class
    declaration, with its [name], [annotations] and [body]. *)
Definition Class (modifiers : list string) (annotations : list value)
    (documentation : value) (name : string) (body : list value) :=
  VNode ClassDeclaration
        ["modifiers"; "annotations"; "documentation"; "name"; "body";
         "type_parameters"; "extends"; "implements"]
        [VSet modifiers; VList annotations; documentation; VStr name;
         VList body; VNone; VNone; VNone].

(** Modelled from the spec: the parser's node class for a method
    declaration, with its [name], [parameters], optional
    [return_type], [annotations] and [documentation]. *)
Definition Method (documentation : value) (modifiers : list string)
    (annotations : list value) (return_type : value) (name : string)
    (parameters : list value) (body : value) :=
  VNode MethodDeclaration
        ["documentation"; "modifiers"; "annotations"; "type_parameters";
         "return_type"; "name"; "parameters"; "throws"; "body"]
        [documentation; VSet modifiers; VList annotations; VNone;
         return_type; VStr name; VList parameters; VNone; body].

(** Modelled from the spec: the parser's node class for a field
    declaration, with its [declarators], [type], [annotations] and
    [documentation]. *)
Definition Field (documentation : value) (modifiers : list string)
    (annotations : list value) (type : value) (declarators : list value) :=
  VNode FieldDeclaration
        ["documentation"; "modifiers"; "annotations"; "type"; "declarators"]
        [documentation; VSet modifiers; VList annotations; type;
         VList declarators].

(** Modelled from the spec: the parser's node class for a primitive
    type, with its [name]. *)
Definition BasicType (name : string) :=
  VNode (OtherNode "BasicType") ["name"; "dimensions"] [VStr name; VList []].

(** Modelled from the spec: the parser's node class for a class type,
    with its [name] and optional type [arguments]. *)
Definition ReferenceType (name : string) (arguments : value) :=
  VNode (OtherNode "ReferenceType")
        ["name"; "dimensions"; "arguments"; "sub_type"]
        [VStr name; VList []; arguments; VNone].

(** Modelled from the spec: the parser's node class for a type
    argument, with its [type]. *)
Definition TypeArgument (type : value) :=
  VNode (OtherNode "TypeArgument") ["type"; "pattern_type"] [type; VNone].

(** Modelled from the spec: the parser's node class for a parameter,
    with its [type] and [name]. *)
Definition FormalParameter (type : value) (name : string) :=
  VNode (OtherNode "FormalParameter")
        ["modifiers"; "annotations"; "type"; "name"; "varargs"]
        [VSet []; VList []; type; VStr name; VBool false].

(** Modelled from the spec: the parser's node class for a declarator,
    with the variable's [name]. *)
Definition VariableDeclarator (name : string) (initializer : value) :=
  VNode (OtherNode "VariableDeclarator")
        ["name"; "dimensions"; "initializer"]
        [VStr name; VList []; initializer].

(** Modelled from the spec: the parser's node class for an annotation,
    with its [name] and its payload [element]. *)
Definition Annotation (name : string) (element : value) :=
  VNode (OtherNode "Annotation") ["name"; "element"] [VStr name; element].

(** Modelled from the spec: the parser's node class for a named
    element [name = value] of an annotation. *)
Definition ElementValuePair (name : string) (v : value) :=
  VNode (OtherNode "ElementValuePair") ["name"; "value"] [VStr name; v].

(** Modelled from the spec: the parser's node class for an array
    [{v1, v2, ...}] of element values. *)
Definition ElementArrayValue (values : list value) :=
  VNode (OtherNode "ElementArrayValue") ["values"] [VList values].

(** Modelled from the spec: the parser's node class for a qualified
    constant such as [Manifest.permission.CAMERA]: qualifier
    [Manifest.permission], member [CAMERA]. *)
Definition MemberReference (qualifier member : string) :=
  VNode (OtherNode "MemberReference")
        ["prefix_operators"; "postfix_operators"; "qualifier"; "selectors";
         "member"]
        [VNone; VNone; VStr qualifier; VNone; VStr member].

(** Modelled from the spec: the parser's node class for a literal; it
    has no [member] and no [values], and its [qualifier] is [None]. *)
Definition Literal (text : string) :=
  VNode (OtherNode "Literal")
        ["prefix_operators"; "postfix_operators"; "qualifier"; "selectors";
         "value"]
        [VNone; VNone; VNone; VNone; VStr text].

(** Modelled from the spec: the parser's node class for a method call,
    with the invoked [member] and the [arguments]. *)
Definition Invocation (qualifier member : string) (arguments : list value) :=
  VNode MethodInvocation
        ["prefix_operators"; "postfix_operators"; "qualifier"; "selectors";
         "type_arguments"; "arguments"; "member"]
        [VNone; VNone; VStr qualifier; VNone; VNone; VList arguments;
         VStr member].

End Tree.

(** ** Sample units *)

Module Samples.
Import Tree.

(** [@RequiresPermission(Manifest.permission.CAMERA) void takePhoto() {}] *)
Definition takePhoto : value :=
  Method VNone []
    [Annotation "RequiresPermission" (MemberReference "Manifest.permission" "CAMERA")]
    VNone "takePhoto" [] (VList []).

(** [package com.app; class Camera { ...takePhoto... }] *)
Definition camera_unit : value :=
  CompilationUnit (Package VNone VNone "com.app") []
    [Class [] [] VNone "Camera" [takePhoto]].

(** [@RequiresPermission(conditional = true) void takePhoto() {}] in
    class [Camera] of package [com.app]. *)
Definition conditional_unit : value :=
  CompilationUnit (Package VNone VNone "com.app") []
    [Class [] [] VNone "Camera"
       [Method VNone []
          [Annotation "RequiresPermission"
             (VList [ElementValuePair "conditional" (Literal "true")])]
          VNone "takePhoto" [] (VList [])]].



(** [class Outer { class Inner { ...takePhoto... } }], no package. *)
Definition nested_unit : value :=
  CompilationUnit VNone []
    [Class [] [] VNone "Outer" [Class [] [] VNone "Inner" [takePhoto]]].

(** A documentation comment whose note names a path. *)
Definition javadoc : string :=
  "/**
 * @deprecated use a/b
 */".

(** [@UnsupportedAppUsage(maxTargetSdk = Build.VERSION_CODES.P)] *)
Definition usage_marker : value :=
  Annotation "UnsupportedAppUsage"
    (VList [ElementValuePair "maxTargetSdk"
              (MemberReference "Build.VERSION_CODES" "P")]).

(** [<documentation> @UnsupportedAppUsage(...) public int MAX_SIZE;] *)
Definition max_size (documentation : value) : value :=
  Field documentation ["public"] [usage_marker] (BasicType "int")
        [VariableDeclarator "MAX_SIZE" VNone].

(** The record [parse_deprecation] starts from for [max_size] in class
    [Limits] of package [com.app]. *)
Definition fresh_usage : UnsupportedAppUsage :=
  new_UnsupportedAppUsage (VStr "MAX_SIZE") "com.app.Limits.MAX_SIZE -> int"
                          false.

End Samples.

Definition run {A} (m : M A) : trace * (exn + A) := m [].


(** ** Annotation payloads *)

(** The payloads the two markers are written with, and the nodes the
    parser gives for them. *)
Module Payload.

(** [<namespace>.<member>]. *)
Definition constant_name (c : string * string) : string :=
  (fst c ++ "." ++ snd c)%string.

Definition constant (c : string * string) : value :=
  Tree.MemberReference (fst c) (snd c).

(** [name = { c1, c2, ... }]. *)
Definition group (g : string * list (string * string)) : value :=
  Tree.ElementValuePair (fst g) (Tree.ElementArrayValue (map constant (snd g))).

(** [@RequiresPermission(name1 = {...}, name2 = {...}, ...)]. *)
Definition permission_marker (groups : list (string * list (string * string)))
  : value :=
  Tree.Annotation "RequiresPermission" (VList (map group groups)).

(** The name of the last group, if there is a group. *)
Definition last_name (groups : list (string * list (string * string)))
  : option string :=
  match rev groups with
  | [] => None
  | g :: _ => Some (fst g)
  end.

(** The value of a named element: a qualified constant, or anything
    else (a literal, an array, ...). *)
Inductive element_value : Type :=
| Constant (namespace member : string)
| Opaque (v : value).

Definition element_node (e : string * element_value) : value :=
  Tree.ElementValuePair (fst e)
    match snd e with
    | Constant q m => Tree.MemberReference q m
    | Opaque v => v
    end.

(** The two keys of the usage marker. *)
Definition is_key (name : string) : bool :=
  String.eqb name "minTargetSdk" || String.eqb name "maxTargetSdk".

(** Every element named by a key holds a qualified constant. *)
Definition keys_hold_constants (elems : list (string * element_value)) : Prop :=
  forall n v, In (n, Opaque v) elems -> is_key n = false.

(** The last element of the payload with the name [key]. *)
Definition last_named (key : string) (elems : list (string * element_value))
  : option (string * element_value) :=
  find (fun e => String.eqb (fst e) key) (rev elems).

(** What the record holds for [key] after the payload [elems]. *)
Definition bound (key : string) (elems : list (string * element_value))
  : value :=
  match last_named key elems with
  | Some (_, Constant q m) => VStr (q ++ "." ++ m)
  | _ => VInt 0
  end.

End Payload.

(** ** The vocabulary of the properties *)

(** [t] occurs in [s]. *)
Definition occurs (t s : string) : Prop :=
  exists pre post, s = (pre ++ t ++ post)%string.

(** [s] is [pre], then [t], then [post], and [t] occurs nowhere
    earlier in [s]. *)
Definition first_occurrence (t s pre post : string) : Prop :=
  s = (pre ++ t ++ post)%string /\
  forall pre' post', s = (pre' ++ t ++ post')%string ->
                     String.length pre <= String.length pre'.

(** The tag the miner looks for. *)
Definition tag : string := "@deprecated".

(** The characters of a string. *)
Definition chars (s : string) : list ascii := list_ascii_of_string s.

(** The note of the Documentation Miner as the specification words it:
    from the first occurrence of the tag to the end, line by line, the
    leading ['*'] and ['/'] and the surrounding white space taken off,
    the lines put together; empty without the tag. *)
Module SpecMiner.

Definition is_decoration (c : ascii) : bool :=
  Ascii.eqb c "*" || Ascii.eqb c "/".

Fixpoint strip_leading (s : string) : string :=
  match s with
  | EmptyString => EmptyString
  | String c s' =>
      if is_decoration c || PyStr.is_space c then strip_leading s' else s
  end.

Definition clean (line : string) : string :=
  PyStr.rstrip (strip_leading line).

Definition note (documentation : string) : string :=
  let at_tag := PyStr.find documentation tag in
  if (at_tag <? 0)%Z then EmptyString
  else PyStr.join ""
         (map clean (PyStr.split "010" (PyStr.slice_from at_tag documentation))).

End SpecMiner.

(** The payload of a usage marker. *)
Inductive usage_payload : Type :=
| NoPayload
| Single (e : string * Payload.element_value)
| Many (elems : list (string * Payload.element_value)).

(** The named elements of a payload, in order. *)
Definition elements (p : usage_payload)
  : list (string * Payload.element_value) :=
  match p with
  | NoPayload => []
  | Single e => [e]
  | Many elems => elems
  end.

(** The annotation node of a usage marker with the payload [p]. *)
Definition usage_marker (p : usage_payload) : value :=
  Tree.Annotation "UnsupportedAppUsage"
    match p with
    | NoPayload => VNone
    | Single e => Payload.element_node e
    | Many elems => VList (map Payload.element_node elems)
    end.

(** What one element does to the record. *)
Definition set_bound (e : string * Payload.element_value)
    (t : UnsupportedAppUsage) : UnsupportedAppUsage :=
  match snd e with
  | Payload.Constant q m =>
      if String.eqb (fst e) "minTargetSdk"
      then set_minTargetSdk t (VStr (q ++ "." ++ m))
      else if String.eqb (fst e) "maxTargetSdk"
           then set_maxTargetSdk t (VStr (q ++ "." ++ m))
           else t
  | Payload.Opaque _ => t
  end.

(** Values in which the scan meets none of the five classes it acts
    on: no record, no event and no change of the path. *)
Fixpoint inert (v : value) : bool :=
  match v with
  | VList l => forallb inert l
  | VNode (OtherNode _) _ children => forallb inert children
  | VNode _ _ _ => false
  | _ => true
  end.


(** [@RequiresPermission(Manifest.permission.CAMERA) void takePhoto()]
    with the given body, in class [Camera] of package [com.app], after
    the given imports. *)
Definition camera_unit_with (imports : list value) (class_documentation : value)
    (body : value) : value :=
  Tree.CompilationUnit (Tree.Package VNone VNone "com.app") imports
    [Tree.Class [] [] class_documentation "Camera"
       [Tree.Method VNone []
          [Tree.Annotation "RequiresPermission"
             (Tree.MemberReference "Manifest.permission" "CAMERA")]
          VNone "takePhoto" [] body]].

(** Class and method nodes have attributes, as all nodes of the parser
    do: their list of children is not empty. *)
Fixpoint well_formed (v : value) : bool :=
  match v with
  | VList l => forallb well_formed l
  | VNode cls _ children =>
      (negb (pushes cls) || match children with [] => false | _ => true end)
      && forallb well_formed children
  | _ => true
  end.

(** The name of a package declaration. *)
Definition package_name (v : value) : option value :=
  if isinstance v PackageDeclaration then attribute v "name" else None.

(** The frame after the visit of [v]: a package declaration makes
    [qualifier] name a new list with its name alone; the visit of
    anything else leaves the frame as it was. *)
Definition after (v : value) (f : frame) : frame :=
  match package_name v with
  | Some n => rebind f n
  | None => f
  end.

(** The name of the last package declaration among [children]. *)
Fixpoint last_package (children : list value) : option value :=
  match children with
  | [] => None
  | v :: rest =>
      match last_package rest with
      | Some n => Some n
      | None => package_name v
      end
  end.

(** The two halves of a turn of the loop: the chain of [isinstance]
    tests, then the descent into the children of a node. *)
Definition entered (child : value) (partial : list record) (fr : frame)
  : M (list record * frame) :=
  match child with
  | VNode PackageDeclaration _ _ =>
      n <- getattr child "name" ;;
      ret (partial, rebind fr n)
  | VNode ClassDeclaration _ _ =>
      n <- getattr child "name" ;;
      ret (partial, push fr n)
  | VNode MethodDeclaration _ _ =>
      n <- getattr child "name" ;;
      let fr := push fr n in
      found <- parse_element_annotations child (current fr) ;;
      ret (partial ++ found, fr)
  | VNode FieldDeclaration _ _ =>
      found <- parse_element_annotations child (current fr) ;;
      ret (partial ++ found, fr)
  | VNode MethodInvocation _ _ =>
      method_output <- parse_method_invocation child (current fr) ;;
      ret (match method_output with
           | Some r => partial ++ [r]
           | None => partial
           end, fr)
  | VList elems =>
      '(found, inner) <- for_each visit elems ([], enter (current fr)) ;;
      ret (partial ++ found, update fr (passed inner))
  | _ => ret (partial, fr)
  end.

Definition descended (child : value) (partial : list record) (fr : frame)
  : M (list record * frame) :=
  match child with
  | VNode cls _ (c :: cs) =>
      '(found, inner) <- for_each visit (c :: cs) ([], enter (current fr)) ;;
      let fr := update fr (passed inner) in
      if pushes cls then
        fr <- pop fr ;;
        ret (partial ++ found, fr)
      else ret (partial ++ found, fr)
  | _ => ret (partial, fr)
  end.

(** ** Declarations as the parser gives them *)

(** Methods and fields by their parts, for the signature builder. *)
Module Shape.

(** A parameter: the name of its type, the type arguments of that type
    (any value), and its own name. *)
Definition formal (p : string * value * string) : value :=
  Tree.FormalParameter (Tree.ReferenceType (fst (fst p)) (snd (fst p))) (snd p).

(** ["<type> <name>"]. *)
Definition formal_text (p : string * value * string) : string :=
  (fst (fst p) ++ " " ++ snd p)%string.

(** A type argument of a return type: the name of its type, and the
    type arguments of that type (any value). *)
Definition type_argument (a : string * value) : value :=
  Tree.TypeArgument (Tree.ReferenceType (fst a) (snd a)).

(** The [return_type] of a method: [None] for [void], else the name of
    the type and its type arguments ([None] when there is none). *)
Definition return_node (rt : option (string * list (string * value))) : value :=
  match rt with
  | None => VNone
  | Some (t, args) =>
      Tree.ReferenceType t
        match args with
        | [] => VNone
        | _ => VList (map type_argument args)
        end
  end.

(** What stands after the arrow. *)
Definition return_text (rt : option (string * list (string * value))) : string :=
  match rt with
  | None => "void"
  | Some (t, []) => if String.eqb t "" then "void" else t
  | Some (t, args) => (t ++ "<" ++ PyStr.join ", " (map fst args) ++ ">")%string
  end.

End Shape.

(** ** Records as a caller reads them *)

(** The two kinds of marker, and of record. *)
Inductive kind : Type := Permission | Usage.

Definition kind_of (r : record) : kind :=
  match r with
  | Requires _ => Permission
  | Unsupported _ => Usage
  end.

(** The kind of marker an annotation is, by its name. *)
Definition marker_kind (annotation : value) : option kind :=
  match attribute annotation "name" with
  | Some n =>
      if eq_str n "UnsupportedAppUsage" then Some Usage
      else if eq_str n "RequiresPermission" then Some Permission
      else None
  | None => None
  end.

(** The kinds of the markers among [annotations], in order. *)
Definition marker_kinds (annotations : list value) : list kind :=
  flat_map (fun a => match marker_kind a with
                     | Some k => [k]
                     | None => []
                     end) annotations.

(** The fields the two records share. *)
Definition record_name (r : record) : value :=
  match r with
  | Requires p => rp_name p
  | Unsupported u => ua_name u
  end.

Definition record_signature (r : record) : string :=
  match r with
  | Requires p => rp_qualifier p
  | Unsupported u => ua_qualifier u
  end.

Definition record_isMethod (r : record) : bool :=
  match r with
  | Requires p => rp_isMethod p
  | Unsupported u => ua_isMethod u
  end.

(** ** Classes in classes *)

(** [class c1 { class c2 { ... body ... } }] for the names
    [c1; c2; ...], outermost first. *)
Definition nested (classes : list string) (body : list value) : list value :=
  fold_right (fun n inner => [Tree.Class [] [] VNone n inner]) body classes.

(** [@RequiresPermission(<constant>) void <name>() {}]. *)
Definition marked_method (name : string) (c : string * string) : value :=
  Tree.Method VNone []
    [Tree.Annotation "RequiresPermission" (Payload.constant c)]
    VNone name [] (VList []).

(** * Properties *)

(** ** Occurrences of a substring *)

Section StringFacts.

Lemma sapp_assoc (a b c : string) : ((a ++ b) ++ c = a ++ b ++ c)%string.
Proof. induction a as [|x a IH]; simpl; [reflexivity | now rewrite IH]. Qed.

Lemma sapp_nil_r (a : string) : (a ++ "")%string = a.
Proof. induction a as [|x a IH]; simpl; [reflexivity | now rewrite IH]. Qed.

Lemma sapp_length (a b : string) :
  String.length (a ++ b) = String.length a + String.length b.
Proof. induction a as [|x a IH]; simpl; [reflexivity | now rewrite IH]. Qed.

Lemma sapp_inj_length (a b a' b' : string) :
  (a ++ b = a' ++ b')%string -> String.length a = String.length a' ->
  a = a' /\ b = b'.
Proof.
  revert a'. induction a as [|x a IH]; intros [|y a'] E L;
    simpl in *; try discriminate.
  - now split.
  - injection E as -> E. injection L as L.
    destruct (IH _ E L) as [-> ->]. now split.
Qed.

Lemma starts_with_iff (t s : string) :
  PyStr.starts_with t s = true <-> exists post, s = (t ++ post)%string.
Proof.
  revert s. induction t as [|a t IH]; intros s; simpl.
  - split; [intros _; now exists s | reflexivity].
  - destruct s as [|b s].
    + split; [discriminate | intros [post E]; discriminate].
    + rewrite andb_true_iff, Ascii.eqb_eq, IH. split.
      * intros [-> [post ->]]. now exists post.
      * intros [post E]. injection E as -> ->. split; [reflexivity|].
        now exists post.
Qed.

Lemma occurs_cons_inv (t : string) (c : ascii) (s : string) :
  PyStr.starts_with t (String c s) = false ->
  forall pre post, String c s = (pre ++ t ++ post)%string ->
  exists pre', pre = String c pre' /\ s = (pre' ++ t ++ post)%string.
Proof.
  intros N pre post E. destruct pre as [|x pre]; simpl in E.
  - assert (PyStr.starts_with t (String c s) = true) as Y
        by (apply starts_with_iff; now exists post).
    congruence.
  - injection E as -> ->. now exists pre.
Qed.

(** [find_from] returns [-1] exactly when there is no occurrence, and
    else the offset of the first one. *)
Lemma find_from_spec (t s : string) (i : Z) :
  (PyStr.find_from i s t = (-1)%Z /\ ~ occurs t s) \/
  (exists pre post, first_occurrence t s pre post /\
      PyStr.find_from i s t = (i + Z.of_nat (String.length pre))%Z).
Proof.
  revert i. induction s as [|c s IH]; intros i; simpl.
  - destruct (PyStr.starts_with t "") eqn:P.
    + right. apply starts_with_iff in P. destruct P as [post P].
      exists ""%string, post. repeat split.
      * exact P.
      * intros; simpl; lia.
      * simpl; lia.
    + left. split; [reflexivity|]. intros [pre [post E]].
      destruct pre; simpl in E; [|discriminate].
      assert (PyStr.starts_with t "" = true) as Y
          by (apply starts_with_iff; now exists post).
      congruence.
  - destruct (PyStr.starts_with t (String c s)) eqn:P.
    + right. apply starts_with_iff in P. destruct P as [post P].
      exists ""%string, post. repeat split.
      * exact P.
      * intros; simpl; lia.
      * simpl; lia.
    + destruct (IH (i + 1)%Z) as [[F N] | [pre [post [[E Min] F]]]].
      * left. split; [exact F|]. intros [pre [post E]].
        destruct (occurs_cons_inv _ P _ _ E) as [pre' [-> E']].
        apply N. now exists pre', post.
      * right. exists (String c pre), post. repeat split.
        -- simpl. now rewrite E.
        -- intros pre' post' E'.
           destruct (occurs_cons_inv _ P _ _ E') as [pre'' [-> E'']].
           simpl. specialize (Min _ _ E''). lia.
        -- rewrite F. simpl String.length. lia.
Qed.

Lemma find_absent (t s : string) :
  ~ occurs t s -> PyStr.find s t = (-1)%Z.
Proof.
  intros N. unfold PyStr.find.
  destruct (find_from_spec t s 0) as [[F _] | [pre [post [[E _] _]]]].
  - exact F.
  - exfalso. apply N. now exists pre, post.
Qed.

Lemma find_first (t s pre post : string) :
  first_occurrence t s pre post ->
  PyStr.find s t = Z.of_nat (String.length pre).
Proof.
  intros [E Min]. unfold PyStr.find.
  destruct (find_from_spec t s 0) as [[_ N] | [pre0 [post0 [[E0 Min0] F]]]].
  - exfalso. apply N. now exists pre, post.
  - rewrite F. specialize (Min _ _ E0). specialize (Min0 _ _ E). lia.
Qed.


Lemma drop_app (pre rest : string) :
  PyStr.drop (String.length pre) (pre ++ rest) = rest.
Proof.
  induction pre as [|c pre IH]; simpl; [now destruct rest | exact IH].
Qed.

Lemma first_occurrence_unique (t s pre post pre' post' : string) :
  first_occurrence t s pre post -> first_occurrence t s pre' post' ->
  pre = pre' /\ post = post'.
Proof.
  intros [E Min] [E' Min'].
  assert (String.length pre = String.length pre') as L
      by (specialize (Min _ _ E'); specialize (Min' _ _ E); lia).
  rewrite E in E'. destruct (sapp_inj_length _ _ _ _ E' L) as [-> E2].
  split; [reflexivity|].
  apply (sapp_inj_length t post t post') in E2; [tauto | reflexivity].
Qed.

End StringFacts.

(** ** Running a computation step by step *)

Section MonadFacts.
Context {A B : Type}.

Lemma bind_returns (m : M A) (k : A -> M B) tr tr1 a :
  m tr = (tr1, inr a) -> bind m k tr = k a tr1.
Proof. unfold bind. now intros ->. Qed.

Lemma bind_raises (m : M A) (k : A -> M B) tr tr1 e :
  m tr = (tr1, inl e) -> bind m k tr = (tr1, inl e).
Proof. unfold bind. now intros ->. Qed.

Lemma bind_inv (m : M A) (k : A -> M B) tr tr' b :
  bind m k tr = (tr', inr b) ->
  exists a tr1, m tr = (tr1, inr a) /\ k a tr1 = (tr', inr b).
Proof.
  unfold bind. destruct (m tr) as [tr1 [e | a]]; intros E.
  - discriminate.
  - now exists a, tr1.
Qed.
End MonadFacts.

Lemma ret_inv {A} (a b : A) tr tr' :
  ret a tr = (tr', inr b) -> tr' = tr /\ b = a.
Proof. unfold ret. intros E. injection E as -> ->. now split. Qed.

(** Splits a successful run of [x <- m ;; k] into the run of [m] and
    the run of [k]. *)
Ltac step H :=
  let a := fresh "v" in
  let tr := fresh "tr" in
  let H1 := fresh "H" in
  apply bind_inv in H; destruct H as [a [tr [H1 H]]].

(** ** The unit gate *)


(** ** Loops *)

Section LoopFacts.
Context {A S : Type} (body : A -> S -> M S).

(** What every successful turn keeps, a successful loop keeps. *)
Lemma for_each_keeps (P : S -> Prop) :
  (forall x s tr tr' s', P s -> body x s tr = (tr', inr s') -> P s') ->
  forall xs s tr tr' s',
    P s -> for_each body xs s tr = (tr', inr s') -> P s'.
Proof.
  intros K xs. induction xs as [|x xs IH]; intros s tr tr' s' Ps E; simpl in E.
  - apply ret_inv in E. destruct E as [_ ->]. exact Ps.
  - step E. eapply IH; [|exact E]. eapply K; eassumption.
Qed.

Lemma for_each_app xs ys s tr :
  for_each body (xs ++ ys) s tr =
  bind (for_each body xs s) (for_each body ys) tr.
Proof.
  revert s tr. induction xs as [|x xs IH]; intros s tr; simpl.
  - reflexivity.
  - unfold bind in *. destruct (body x s tr) as [tr1 [e | s1]].
    + reflexivity.
    + apply IH.
Qed.
End LoopFacts.

(** ** The documentation miner *)

Section Miner.

(** Where [find] points is where the first occurrence starts. *)
Lemma mined_note_absent (d : string) :
  ~ occurs tag d -> mined_note d = None.
Proof.
  intros N. unfold mined_note. fold tag. now rewrite (find_absent N).
Qed.

Lemma mined_note_first (d pre post : string) :
  first_occurrence tag d pre post ->
  mined_note d =
    match pre with
    | EmptyString => None
    | _ => Some (PyStr.join ""
                   (map clean_line (PyStr.split "010" (tag ++ post))))
    end.
Proof.
  intros F. unfold mined_note. fold tag. rewrite (find_first F).
  destruct F as [E _]. destruct pre as [|c pre]; [reflexivity|].
  replace (0 <? Z.of_nat (String.length (String c pre)))%Z with true
    by (symmetry; apply Z.ltb_lt; simpl String.length; lia).
  unfold deprecation_doc_text, PyStr.slice_from.
  rewrite Nat2Z.id, E, drop_app. reflexivity.
Qed.

Lemma mined_note_some (d text : string) :
  mined_note d = Some text ->
  exists pre post, pre <> EmptyString /\ first_occurrence tag d pre post.
Proof.
  intros E.
  destruct (find_from_spec tag d 0) as [[_ N] | [pre [post [F _]]]].
  - rewrite (mined_note_absent N) in E. discriminate.
  - exists pre, post. split; [|exact F].
    rewrite (mined_note_first F) in E. destruct pre; [discriminate|].
    discriminate.
Qed.

(** On a documentation string the miner is the pure [mined_note]:
    nothing is raised and nothing is shown. *)
Lemma mine_documentation_string element d target tr :
  attribute element "documentation" = Some (VStr d) ->
  mine_documentation element target tr =
    (tr, inr match mined_note d with
             | Some text => set_deprecationNote target text
             | None => target
             end).
Proof.
  intros D. unfold mine_documentation, getattr. rewrite D.
  destruct d as [|c d]; [reflexivity|].
  cbn -[mined_note]. destruct (mined_note (String c d)); reflexivity.
Qed.

Lemma mine_documentation_none element target tr :
  attribute element "documentation" = Some VNone ->
  mine_documentation element target tr = (tr, inr target).
Proof.
  intros D. unfold mine_documentation, getattr. now rewrite D.
Qed.

End Miner.

Section Characters.

Lemma chars_app (a b : string) : chars (a ++ b) = chars a ++ chars b.
Proof.
  unfold chars. induction a as [|x a IH]; simpl; [reflexivity | now rewrite IH].
Qed.

Lemma chars_remove_char (x c : ascii) (s : string) :
  In c (chars (PyStr.remove_char x s)) -> c <> x /\ In c (chars s).
Proof.
  unfold chars. induction s as [|a s IH]; simpl; [tauto|].
  destruct (Ascii.eqb a x) eqn:E.
  - intros H. destruct (IH H). tauto.
  - simpl. intros [<- | H].
    + apply Ascii.eqb_neq in E. tauto.
    + destruct (IH H). tauto.
Qed.

Lemma chars_lstrip (c : ascii) (s : string) :
  In c (chars (PyStr.lstrip s)) -> In c (chars s).
Proof.
  unfold chars. induction s as [|a s IH]; simpl; [tauto|].
  destruct (PyStr.is_space a); simpl; tauto.
Qed.

Lemma chars_rstrip (c : ascii) (s : string) :
  In c (chars (PyStr.rstrip s)) -> In c (chars s).
Proof.
  unfold chars. induction s as [|a s IH]; simpl; [tauto|].
  destruct (PyStr.rstrip s) as [|b r].
  - destruct (PyStr.is_space a); simpl; tauto.
  - simpl in *. tauto.
Qed.

Lemma chars_join_empty (c : ascii) (parts : list string) :
  In c (chars (PyStr.join "" parts)) ->
  exists p, In p parts /\ In c (chars p).
Proof.
  induction parts as [|p parts IH]; simpl; [tauto|].
  destruct parts as [|q parts].
  - intros H. exists p. tauto.
  - change ("" ++ PyStr.join "" (q :: parts))%string
      with (PyStr.join "" (q :: parts)).
    rewrite chars_app, in_app_iff. intros [H | H].
    + exists p. tauto.
    + destruct (IH H) as [p' [I C]]. exists p'. tauto.
Qed.

(** A cleaned line holds no ['*'] and no ['/'], wherever they stood. *)
Lemma clean_line_plain (c : ascii) (x : string) :
  In c (chars (clean_line x)) -> c <> "*"%char /\ c <> "/"%char.
Proof.
  unfold clean_line, PyStr.strip. intros H.
  apply chars_rstrip, chars_lstrip, chars_remove_char in H.
  destruct H as [N1 H]. apply chars_remove_char in H. tauto.
Qed.

End Characters.

(** C4, as the code has it.  On the documentation of a declaration,
    absent ([None]) or a string, the miner never raises and shows
    nothing.  The note stays empty when the documentation is absent
    and when the tag does not occur; when the first occurrence of the
    tag is at a positive offset, the note is the text from there to the
    end, split at the line feeds, every line with all its ['*'] and
    ['/'] removed (not only the leading ones) and then stripped of
    surrounding white space, the lines put together with nothing
    between them: no ['*'] and no ['/'] is left in a note. *)
Theorem documentation_miner (element : value) (doc : option string)
    (target : UnsupportedAppUsage) (tr : trace) :
  attribute element "documentation"
    = Some (match doc with Some d => VStr d | None => VNone end) ->
  deprecationNote target = EmptyString ->
  exists u,
    mine_documentation element target tr = (tr, inr u) /\
    (forall c, In c (chars (deprecationNote u)) ->
               c <> "*"%char /\ c <> "/"%char) /\
    match doc with
    | None => deprecationNote u = EmptyString
    | Some d =>
        (~ occurs tag d -> deprecationNote u = EmptyString) /\
        (forall pre post,
            pre <> EmptyString -> first_occurrence tag d pre post ->
            deprecationNote u =
              PyStr.join ""
                (map clean_line (PyStr.split "010" (tag ++ post))))
    end.
Proof.
  intros D T. destruct doc as [d|].
  - rewrite (mine_documentation_string _ _ _ D).
    eexists. split; [reflexivity|].
    destruct (mined_note d) as [text|] eqn:N.
    + simpl. destruct (mined_note_some _ N) as [pre0 [post0 [P0 F0]]].
      pose proof (mined_note_first F0) as N0. rewrite N in N0.
      destruct pre0 as [|c0 pre0]; [congruence|]. injection N0 as ->.
      split; [|split].
      * intros c H. apply chars_join_empty in H. destruct H as [p [I C]].
        apply in_map_iff in I. destruct I as [x [<- _]].
        now apply clean_line_plain in C.
      * intros A. exfalso. apply A. destruct F0 as [E _].
        now exists (String c0 pre0), post0.
      * intros pre post _ F.
        destruct (first_occurrence_unique F F0) as [_ ->]. reflexivity.
    + rewrite T. split; [intros c []|]. split.
      * reflexivity.
      * intros pre post P F. rewrite (mined_note_first F) in N.
        destruct pre; [congruence | discriminate].
  - rewrite (mine_documentation_none _ _ _ D).
    eexists. split; [reflexivity|]. rewrite T. split; [intros c []|].
    reflexivity.
Qed.

(** The miner on [Samples.max_size] documented by [Samples.javadoc]. *)
Lemma documentation_miner_witness :
  exists u,
    mine_documentation (Samples.max_size (VStr Samples.javadoc))
                       Samples.fresh_usage [] = ([], inr u) /\
    (forall c, In c (chars (deprecationNote u)) ->
               c <> "*"%char /\ c <> "/"%char) /\
    (~ occurs tag Samples.javadoc -> deprecationNote u = EmptyString) /\
    (forall pre post,
        pre <> EmptyString -> first_occurrence tag Samples.javadoc pre post ->
        deprecationNote u =
          PyStr.join "" (map clean_line (PyStr.split "010" (tag ++ post)))).
Proof.
  exact (@documentation_miner (Samples.max_size (VStr Samples.javadoc))
           (Some Samples.javadoc) Samples.fresh_usage [] eq_refl eq_refl).
Defined.

(** C4 as stated fails on [Samples.javadoc]: the code's note has lost
    the ['/'] inside [a/b], which is no leading decoration and which
    the note as the specification words it keeps. *)
Lemma miner_removes_inner_slash :
  run (parse_deprecation (Samples.max_size (VStr Samples.javadoc))
                         Samples.usage_marker
                         [VStr "com.app"; VStr "Limits"])
  = ([], inr (mkUnsupportedAppUsage
                (VStr "MAX_SIZE") "com.app.Limits.MAX_SIZE -> int" false
                (VInt 0) (VStr "Build.VERSION_CODES.P")
                "@deprecated use ab")) /\
  SpecMiner.note Samples.javadoc = "@deprecated use a/b" /\
  "@deprecated use ab" <> SpecMiner.note Samples.javadoc.
Proof.
  split; [vm_compute; reflexivity|].
  split; [vm_compute; reflexivity|].
  vm_compute. discriminate.
Qed.

(** ** The usage extractor and the documentation *)

Section UsageNote.

Lemma usage_element_keeps_note elm target tr tr' u :
  usage_element elm target tr = (tr', inr u) ->
  deprecationNote u = deprecationNote target.
Proof.
  unfold usage_element. intros E. step E.
  destruct (eq_str v "minTargetSdk" || eq_str v "maxTargetSdk").
  - do 5 step E. apply ret_inv in E. destruct E as [_ ->].
    destruct (eq_str v "minTargetSdk"); reflexivity.
  - apply ret_inv in E. now destruct E as [_ ->].
Qed.

(** A successful [parse_deprecation] ends with the miner, run on a
    record whose note is still empty. *)
Lemma parse_deprecation_ends_mining element annotation qualifier tr tr' u :
  parse_deprecation element annotation qualifier tr = (tr', inr u) ->
  exists target tr1,
    deprecationNote target = EmptyString /\
    mine_documentation element target tr1 = (tr', inr u).
Proof.
  unfold parse_deprecation. intros E. step E. destruct v as [name q].
  do 3 step E. exists v1, tr3. split; [|exact E].
  destruct (v && truthy v0).
  - destruct v0; try (apply usage_element_keeps_note in H2; exact H2).
    eapply (for_each_keeps usage_element
              (fun t => deprecationNote t = EmptyString)); [| |exact H2].
    + intros x s t t' s' P B. apply usage_element_keeps_note in B. congruence.
    + reflexivity.
  - apply ret_inv in H2. now destruct H2 as [_ ->].
Qed.

End UsageNote.

(** C10.  Whenever the usage extractor returns a record for a
    declaration whose documentation is the string [d]: if [d] begins
    with the tag, the record's note is the empty string; and a note
    that is not empty comes from a first occurrence of the tag at a
    strictly positive offset (after a non-empty [pre]). *)
Theorem note_needs_positive_offset (element annotation : value)
    (qualifier : list value) (d : string) (tr tr' : trace)
    (u : UnsupportedAppUsage) :
  attribute element "documentation" = Some (VStr d) ->
  parse_deprecation element annotation qualifier tr = (tr', inr u) ->
  (forall post, d = (tag ++ post)%string -> deprecationNote u = EmptyString) /\
  (deprecationNote u <> EmptyString ->
   exists pre post, pre <> EmptyString /\ first_occurrence tag d pre post).
Proof.
  intros D E.
  destruct (parse_deprecation_ends_mining _ _ _ _ E) as [target [tr1 [T Mn]]].
  rewrite (mine_documentation_string _ _ _ D) in Mn.
  injection Mn as _ <-.
  destruct (mined_note d) as [text|] eqn:N.
  - destruct (mined_note_some _ N) as [pre [post [P F]]]. split.
    + intros post0 E0. exfalso. apply P.
      assert (first_occurrence tag d "" post0) as F0
          by (split; [exact E0 | intros; simpl; lia]).
      now destruct (first_occurrence_unique F F0).
    + intros _. now exists pre, post.
  - split; [intros; exact T | intros C; now rewrite T in C].
Qed.

(** [Samples.max_size] with a documentation that begins with the tag. *)
Lemma note_needs_positive_offset_witness :
  (forall post, "@deprecated use getMaxSize() instead" = (tag ++ post)%string ->
     deprecationNote
       (mkUnsupportedAppUsage
          (VStr "MAX_SIZE") "com.app.Limits.MAX_SIZE -> int" false
          (VInt 0) (VStr "Build.VERSION_CODES.P") "") = EmptyString) /\
  (deprecationNote
     (mkUnsupportedAppUsage
        (VStr "MAX_SIZE") "com.app.Limits.MAX_SIZE -> int" false
        (VInt 0) (VStr "Build.VERSION_CODES.P") "") <> EmptyString ->
   exists pre post,
     pre <> EmptyString /\
     first_occurrence tag "@deprecated use getMaxSize() instead" pre post).
Proof.
  exact (@note_needs_positive_offset
           (Samples.max_size (VStr "@deprecated use getMaxSize() instead"))
           Samples.usage_marker [VStr "com.app"; VStr "Limits"]
           "@deprecated use getMaxSize() instead" [] [] _
           eq_refl eq_refl).
Defined.

(** ** The permission extractor *)

Section Requirements.
Import Payload.

Lemma append_constants_run (cs : list (string * string)) target tr :
  for_each append_constant (map constant cs) target tr =
  (tr, inr (mkRequiresPermission
              (rp_name target) (rp_qualifier target) (rp_isMethod target)
              (permissions target ++ map constant_name cs)
              (needsAllOf target))).
Proof.
  revert target. induction cs as [|[q m] cs IH]; intros target; simpl.
  - rewrite app_nil_r. now destruct target.
  - unfold bind at 1. cbn -[for_each]. rewrite IH. simpl.
    now rewrite <- app_assoc, sapp_assoc.
Qed.

Lemma requirement_element_run g target tr :
  requirement_element (group g) target tr =
  (tr, inr (mkRequiresPermission
              (rp_name target) (rp_qualifier target) (rp_isMethod target)
              (permissions target ++ map constant_name (snd g))
              (String.eqb (fst g) "allOf"))).
Proof.
  destruct g as [n cs]. unfold requirement_element. cbn -[for_each].
  unfold bind. cbn -[for_each]. now rewrite append_constants_run.
Qed.

Lemma requirement_loop_run groups target tr :
  for_each requirement_element (map group groups) target tr =
  (tr, inr (mkRequiresPermission
              (rp_name target) (rp_qualifier target) (rp_isMethod target)
              (permissions target
                 ++ flat_map (fun g => map constant_name (snd g)) groups)
              match last_name groups with
              | Some n => String.eqb n "allOf"
              | None => needsAllOf target
              end)).
Proof.
  revert target tr. induction groups as [|g groups IH] using rev_ind;
    intros target tr.
  - simpl. rewrite app_nil_r. now destruct target.
  - rewrite map_app, for_each_app. unfold bind. rewrite IH. simpl map.
    simpl for_each. unfold bind. rewrite requirement_element_run. simpl.
    unfold last_name. rewrite rev_app_distr. simpl.
    rewrite flat_map_app. simpl. now rewrite app_nil_r, <- app_assoc.
Qed.

End Requirements.

(** C2.  For a permission marker whose payload is a sequence of named
    groups of constants, on a declaration whose name and signature the
    builder gives: the extractor returns the record whose [needsAllOf]
    tells whether the last group is named [allOf] (compared as it is
    spelt; false without a group), and whose [permissions] are the
    [<namespace>.<member>] of all the constants of all the groups, in
    the order of the payload. *)
Theorem permission_groups (element : value) (qualifier : list value)
    (groups : list (string * list (string * string)))
    (name : value) (signature : string) (tr tr' : trace) :
  get_name_and_qualifier element qualifier tr = (tr', inr (name, signature)) ->
  parse_requirements element (Payload.permission_marker groups) qualifier tr
  = (tr', inr (mkRequiresPermission
                 name signature (isinstance element MethodDeclaration)
                 (flat_map (fun g => map Payload.constant_name (snd g)) groups)
                 match Payload.last_name groups with
                 | Some n => String.eqb n "allOf"
                 | None => false
                 end)).
Proof.
  intros G. unfold parse_requirements. erewrite bind_returns by exact G.
  cbn -[for_each]. unfold bind. cbn -[for_each].
  destruct groups as [|g groups]; [reflexivity|].
  change (match map Payload.group (g :: groups) with
          | [] => false
          | _ :: _ => true
          end) with true.
  cbv iota. rewrite requirement_loop_run. reflexivity.
Qed.

(** The same method as [Samples.takePhoto] with
    [@RequiresPermission(allOf = {Manifest.permission.CAMERA,
    Manifest.permission.RECORD_AUDIO})], met in class [Camera] of
    package [com.app]. *)
Lemma permission_groups_witness :
  parse_requirements Samples.takePhoto
    (Payload.permission_marker
       [("allOf", [("Manifest.permission", "CAMERA");
                   ("Manifest.permission", "RECORD_AUDIO")])])
    [VStr "com.app"; VStr "Camera"; VStr "takePhoto"] []
  = ([], inr (mkRequiresPermission
                (VStr "takePhoto") "com.app.Camera.takePhoto() -> void" true
                ["Manifest.permission.CAMERA";
                 "Manifest.permission.RECORD_AUDIO"]
                true)).
Proof.
  exact (@permission_groups Samples.takePhoto
           [VStr "com.app"; VStr "Camera"; VStr "takePhoto"]
           [("allOf", [("Manifest.permission", "CAMERA");
                       ("Manifest.permission", "RECORD_AUDIO")])]
           (VStr "takePhoto") "com.app.Camera.takePhoto() -> void" [] []
           eq_refl).
Defined.

(** ** The usage extractor *)

Section Usage.
Import Payload.

Lemma usage_element_run e target tr :
  (forall v, snd e = Opaque v -> is_key (fst e) = false) ->
  usage_element (element_node e) target tr = (tr, inr (set_bound e target)).
Proof.
  destruct e as [n [q m | v]]; intros K; unfold usage_element, set_bound.
  - cbn. unfold bind. cbn.
    destruct (String.eqb n "minTargetSdk") eqn:E1; cbn.
    + now rewrite sapp_assoc.
    + destruct (String.eqb n "maxTargetSdk") eqn:E2; cbn;
        [now rewrite sapp_assoc | reflexivity].
  - specialize (K v eq_refl). unfold is_key in K. cbn in K.
    cbn. unfold bind. cbn. now rewrite K.
Qed.

Lemma keys_hold_constants_app xs ys :
  keys_hold_constants (xs ++ ys) ->
  keys_hold_constants xs /\ keys_hold_constants ys.
Proof.
  unfold keys_hold_constants. intros K.
  split; intros n v I; apply (K n v), in_or_app; tauto.
Qed.

Lemma usage_loop_run elems target tr :
  keys_hold_constants elems ->
  for_each usage_element (map element_node elems) target tr =
  (tr, inr (fold_left (fun t e => set_bound e t) elems target)).
Proof.
  revert target. induction elems as [|e elems IH]; intros target K.
  - reflexivity.
  - simpl. unfold bind. rewrite usage_element_run.
    + apply IH. intros n v I. apply (K n v). now right.
    + intros v E. apply (K (fst e) v). left. destruct e. simpl in *.
      now subst.
Qed.

(** The fields of the record after the elements of a payload. *)
Lemma bounds_after elems target :
  keys_hold_constants elems ->
  let u := fold_left (fun t e => set_bound e t) elems target in
  minTargetSdk u = match last_named "minTargetSdk" elems with
                   | Some (_, Constant q m) => VStr (q ++ "." ++ m)
                   | _ => minTargetSdk target
                   end /\
  maxTargetSdk u = match last_named "maxTargetSdk" elems with
                   | Some (_, Constant q m) => VStr (q ++ "." ++ m)
                   | _ => maxTargetSdk target
                   end /\
  ua_name u = ua_name target /\ ua_qualifier u = ua_qualifier target /\
  ua_isMethod u = ua_isMethod target /\
  deprecationNote u = deprecationNote target.
Proof.
  induction elems as [|e elems IH] using rev_ind; intros K.
  - simpl. tauto.
  - apply keys_hold_constants_app in K. destruct K as [K Ke].
    specialize (IH K). cbv zeta in *. rewrite fold_left_app. simpl.
    unfold last_named in *. rewrite rev_app_distr. simpl.
    destruct IH as [Imin [Imax [In_ [Iq [Im Id]]]]].
    destruct e as [n [q m | v]]; unfold set_bound; simpl.
    + destruct (String.eqb n "minTargetSdk") eqn:E1.
      * apply String.eqb_eq in E1. subst n. simpl. tauto.
      * destruct (String.eqb n "maxTargetSdk") eqn:E2; simpl; tauto.
    + assert (is_key n = false) as Kn by (apply (Ke n v); now left).
      unfold is_key in Kn. apply orb_false_iff in Kn. destruct Kn as [-> ->].
      tauto.
Qed.

(** The extractor on an annotation node with the payload [e]. *)
Lemma parse_deprecation_with (element : value) (qualifier : list value)
    (annotation_name : string) (e : value) (name : value) (signature : string)
    (tr tr' : trace) :
  get_name_and_qualifier element qualifier tr = (tr', inr (name, signature)) ->
  parse_deprecation element (Tree.Annotation annotation_name e) qualifier tr
  = bind (let target := new_UnsupportedAppUsage name signature
                          (isinstance element MethodDeclaration) in
          if truthy e then
            match e with
            | VList elems => for_each usage_element elems target
            | _ => usage_element e target
            end
          else ret target)
         (mine_documentation element) tr'.
Proof.
  intros G. unfold parse_deprecation. erewrite bind_returns by exact G.
  reflexivity.
Qed.

(** The extractor on a usage marker: the elements of the payload one
    after the other, then the miner. *)
Lemma parse_deprecation_run (element : value) (qualifier : list value)
    (payload : usage_payload) (name : value) (signature : string)
    (tr tr' : trace) :
  get_name_and_qualifier element qualifier tr = (tr', inr (name, signature)) ->
  keys_hold_constants (elements payload) ->
  parse_deprecation element (usage_marker payload) qualifier tr
  = mine_documentation element
      (fold_left (fun t e => set_bound e t) (elements payload)
         (new_UnsupportedAppUsage name signature
            (isinstance element MethodDeclaration)))
      tr'.
Proof.
  intros G K. unfold usage_marker.
  erewrite parse_deprecation_with by exact G. cbv zeta.
  destruct payload as [|e|[|e elems]]; try reflexivity.
  - change (truthy (element_node e)) with true. cbv iota.
    erewrite bind_returns; [reflexivity|].
    destruct e as [n ev]. apply (usage_element_run (n, ev)).
    intros v E. apply (K n v). left. simpl in E. now subst.
  - change (truthy (VList (map element_node (e :: elems)))) with true.
    cbv iota. erewrite bind_returns; [reflexivity|].
    now apply usage_loop_run.
Qed.

End Usage.

(** C5, as the code has it.  For a usage marker without payload, with
    one named element or with a sequence of them, where the elements
    named by one of the two keys hold qualified constants, on a
    declaration whose name and signature the builder gives and whose
    documentation is absent or a string: the extractor returns a record
    whose [minTargetSdk] (and [maxTargetSdk]) is the
    [<namespace>.<member>] of the last element with that name, and the
    integer [0] of the record's constructor, not the empty string, when
    no element has that name. *)
Theorem usage_bounds (element : value) (qualifier : list value)
    (payload : usage_payload) (doc : option string)
    (name : value) (signature : string) (tr tr' : trace) :
  get_name_and_qualifier element qualifier tr = (tr', inr (name, signature)) ->
  attribute element "documentation"
    = Some (match doc with Some d => VStr d | None => VNone end) ->
  Payload.keys_hold_constants (elements payload) ->
  exists u,
    parse_deprecation element (usage_marker payload) qualifier tr
      = (tr', inr u) /\
    minTargetSdk u = Payload.bound "minTargetSdk" (elements payload) /\
    maxTargetSdk u = Payload.bound "maxTargetSdk" (elements payload).
Proof.
  intros G D K.
  set (target := new_UnsupportedAppUsage name signature
                   (isinstance element MethodDeclaration)).
  pose proof (@parse_deprecation_run _ _ _ _ _ _ _ G K) as R. fold target in R.
  rewrite R. destruct (bounds_after target K) as [Bmin [Bmax _]].
  set (t := fold_left (fun t e => set_bound e t) (elements payload) target)
    in *.
  unfold Payload.bound. destruct doc as [d|].
  - rewrite (mine_documentation_string _ _ _ D). eexists.
    split; [reflexivity|].
    destruct (mined_note d); simpl; rewrite ?Bmin, ?Bmax; split;
      reflexivity.
  - rewrite (mine_documentation_none _ _ _ D). eexists.
    split; [reflexivity|]. now rewrite Bmin, Bmax.
Qed.

(** [@UnsupportedAppUsage(maxTargetSdk = Build.VERSION_CODES.O,
    trackingBug = 170729553, maxTargetSdk = Build.VERSION_CODES.P)] on
    [Samples.max_size]: the later [maxTargetSdk] is the one kept, the
    literal of the other element is not looked at, and [minTargetSdk]
    is [0]. *)
Lemma usage_bounds_witness :
  exists u,
    parse_deprecation (Samples.max_size (VStr Samples.javadoc))
      (usage_marker
         (Many [("maxTargetSdk", Payload.Constant "Build.VERSION_CODES" "O");
                ("trackingBug", Payload.Opaque (Tree.Literal "170729553"));
                ("maxTargetSdk", Payload.Constant "Build.VERSION_CODES" "P")]))
      [VStr "com.app"; VStr "Limits"] []
    = ([], inr u) /\
    minTargetSdk u = VInt 0 /\
    maxTargetSdk u = VStr "Build.VERSION_CODES.P".
Proof.
  refine (@usage_bounds (Samples.max_size (VStr Samples.javadoc))
            [VStr "com.app"; VStr "Limits"]
            (Many [("maxTargetSdk", Payload.Constant "Build.VERSION_CODES" "O");
                   ("trackingBug", Payload.Opaque (Tree.Literal "170729553"));
                   ("maxTargetSdk", Payload.Constant "Build.VERSION_CODES" "P")])
            (Some Samples.javadoc)
            (VStr "MAX_SIZE") "com.app.Limits.MAX_SIZE -> int" [] []
            eq_refl eq_refl _).
  intros n v [E | [E | [E | []]]]; try discriminate E.
  injection E as <- _. reflexivity.
Defined.

(** C5 as stated fails on [Samples.max_size]: its marker sets
    [maxTargetSdk] only, and the [minTargetSdk] of the record is the
    integer [0], not the empty string. *)
Lemma unset_bound_is_zero :
  exists u,
    run (parse_deprecation (Samples.max_size VNone) Samples.usage_marker
                           [VStr "com.app"; VStr "Limits"])
    = ([], inr u) /\
    maxTargetSdk u = VStr "Build.VERSION_CODES.P" /\
    minTargetSdk u = VInt 0 /\
    minTargetSdk u <> VStr "".
Proof.
  eexists. split; [vm_compute; reflexivity|]. simpl.
  repeat split. discriminate.
Qed.

(** ** Payloads the extractors do not expect *)

Section Malformed.

(** The permission extractor on an annotation node with the payload [e]. *)
Lemma parse_requirements_with (element : value) (qualifier : list value)
    (annotation_name : string) (e : value) (name : value) (signature : string)
    (tr tr' : trace) :
  get_name_and_qualifier element qualifier tr = (tr', inr (name, signature)) ->
  parse_requirements element (Tree.Annotation annotation_name e) qualifier tr
  = (let target := new_RequiresPermission name signature
                     (isinstance element MethodDeclaration) in
     if truthy e then
       match e with
       | VList elems => for_each requirement_element elems target
       | _ => append_constant e target
       end
     else ret target) tr'.
Proof.
  intros G. unfold parse_requirements. erewrite bind_returns by exact G.
  reflexivity.
Qed.

End Malformed.

(** C6, as the code has it.  On a declaration whose name and signature
    the builder gives: a marker without payload leaves the record at the
    defaults of its constructor (no permission and [needsAllOf] false;
    both bounds the integer [0]); the usage extractor passes over a
    named element that is not one of its two keys, whatever its value;
    but a named element whose value is a literal makes the permission
    extractor raise [AttributeError] (the literal has no [values]), and
    makes the usage extractor raise [TypeError] when it is named by one
    of the two keys (the literal's [qualifier] is [None]).  Nothing in
    the program catches these errors. *)
Theorem unexpected_payloads (element : value) (qualifier : list value)
    (name : value) (signature : string) (tr tr' : trace) :
  get_name_and_qualifier element qualifier tr = (tr', inr (name, signature)) ->
  attribute element "documentation" = Some VNone ->
  let is_method := isinstance element MethodDeclaration in
  parse_requirements element (Tree.Annotation "RequiresPermission" VNone)
                     qualifier tr
    = (tr', inr (mkRequiresPermission name signature is_method [] false)) /\
  parse_deprecation element (Tree.Annotation "UnsupportedAppUsage" VNone)
                    qualifier tr
    = (tr', inr (mkUnsupportedAppUsage name signature is_method
                   (VInt 0) (VInt 0) "")) /\
  (forall key text rest,
      parse_requirements element
        (Tree.Annotation "RequiresPermission"
           (VList (Tree.ElementValuePair key (Tree.Literal text) :: rest)))
        qualifier tr
      = (tr', inl (AttributeError "values"))) /\
  (forall key text rest,
      Payload.is_key key = true ->
      parse_deprecation element
        (Tree.Annotation "UnsupportedAppUsage"
           (VList (Tree.ElementValuePair key (Tree.Literal text) :: rest)))
        qualifier tr
      = (tr', inl TypeError)) /\
  (forall key v,
      Payload.is_key key = false ->
      parse_deprecation element
        (Tree.Annotation "UnsupportedAppUsage"
           (VList [Tree.ElementValuePair key v]))
        qualifier tr
      = (tr', inr (mkUnsupportedAppUsage name signature is_method
                     (VInt 0) (VInt 0) ""))).
Proof.
  intros G D is_method. repeat split.
  - erewrite parse_requirements_with by exact G. reflexivity.
  - erewrite parse_deprecation_with by exact G. cbv zeta. cbn [truthy].
    unfold bind, ret. now rewrite (mine_documentation_none _ _ _ D).
  - intros key text rest. erewrite parse_requirements_with by exact G.
    reflexivity.
  - intros key text rest K. erewrite parse_deprecation_with by exact G.
    cbv zeta. cbn [truthy]. unfold Payload.is_key in K.
    simpl for_each. unfold usage_element at 1. cbn [attribute]. cbn.
    unfold bind. cbn. rewrite K. reflexivity.
  - intros key v K. erewrite parse_deprecation_with by exact G.
    cbv zeta. cbn [truthy]. unfold Payload.is_key in K.
    simpl for_each. unfold usage_element at 1. cbn.
    unfold bind. cbn. rewrite K. cbn.
    now rewrite (mine_documentation_none _ _ _ D).
Qed.

(** [Samples.takePhoto] without payload, and with
    [conditional = true] as its payload. *)
Lemma unexpected_payloads_witness :
  parse_requirements Samples.takePhoto
    (Tree.Annotation "RequiresPermission" VNone)
    [VStr "com.app"; VStr "Camera"; VStr "takePhoto"] []
  = ([], inr (mkRequiresPermission
                (VStr "takePhoto") "com.app.Camera.takePhoto() -> void" true
                [] false)) /\
  parse_requirements Samples.takePhoto
    (Tree.Annotation "RequiresPermission"
       (VList [Tree.ElementValuePair "conditional" (Tree.Literal "true")]))
    [VStr "com.app"; VStr "Camera"; VStr "takePhoto"] []
  = ([], inl (AttributeError "values")).
Proof.
  pose proof (@unexpected_payloads Samples.takePhoto
                [VStr "com.app"; VStr "Camera"; VStr "takePhoto"]
                (VStr "takePhoto") "com.app.Camera.takePhoto() -> void" [] []
                eq_refl eq_refl) as [P [_ [L _]]].
  split; [exact P | exact (L "conditional"%string "true"%string [])].
Defined.

(** C6 as stated fails on [Samples.conditional_unit]: the element
    [conditional = true] holds a literal, the extraction raises and the
    scan of the unit ends with that error, with no record. *)
Lemma literal_element_ends_scan :
  run (scan_tree Samples.conditional_unit)
  = ([], inl (AttributeError "values")).
Proof. vm_compute. reflexivity. Qed.

(** ** Declarations with one marker *)

Section Annotated.

Lemma bind_ret_r {A} (m : M A) tr : bind m ret tr = m tr.
Proof. unfold bind, ret. now destruct (m tr) as [tr1 [e | a]]. Qed.

Lemma single_annotation element qualifier annotation tr :
  attribute element "annotations" = Some (VList [annotation]) ->
  parse_element_annotations element qualifier tr
  = annotation_records element qualifier annotation [] tr.
Proof.
  intros A. unfold parse_element_annotations, getattr. rewrite A.
  unfold bind, ret. simpl.
  exact (bind_ret_r (annotation_records element qualifier annotation []) tr).
Qed.

Lemma annotation_requires element qualifier e partial tr :
  annotation_records element qualifier
    (Tree.Annotation "RequiresPermission" e) partial tr
  = bind (parse_requirements element
            (Tree.Annotation "RequiresPermission" e) qualifier)
         (fun r => ret (partial ++ [Requires r])) tr.
Proof. reflexivity. Qed.


End Annotated.

(** ** Fields that declare no or several variables *)




(** ** Induction on values *)

Section ValueInduction.
Variable P : value -> Prop.
Hypothesis PNone : P VNone.
Hypothesis PBool : forall b, P (VBool b).
Hypothesis PInt : forall z, P (VInt z).
Hypothesis PStr : forall s, P (VStr s).
Hypothesis PSet : forall l, P (VSet l).
Hypothesis PList : forall l, Forall P l -> P (VList l).
Hypothesis PNode : forall cls attrs children,
    Forall P children -> P (VNode cls attrs children).

Fixpoint value_induction (v : value) : P v :=
  match v with
  | VNone => PNone
  | VBool b => PBool b
  | VInt z => PInt z
  | VStr s => PStr s
  | VSet l => PSet l
  | VList l =>
      PList ((fix all (l : list value) : Forall P l :=
                match l with
                | [] => Forall_nil P
                | x :: rest => Forall_cons x (value_induction x) (all rest)
                end) l)
  | VNode cls attrs children =>
      PNode cls attrs
        ((fix all (l : list value) : Forall P l :=
            match l with
            | [] => Forall_nil P
            | x :: rest => Forall_cons x (value_induction x) (all rest)
            end) children)
  end.
End ValueInduction.

(** ** Frames *)

Section Frames.

Lemma update_current (f : frame) : update f (current f) = f.
Proof. destruct f as [p [r|]]; reflexivity. Qed.

Lemma current_update (f : frame) (l : list value) : current (update f l) = l.
Proof. destruct f as [p [r|]]; reflexivity. Qed.

Lemma update_update (f : frame) (l l' : list value) :
  update (update f l) l' = update f l'.
Proof. destruct f as [p [r|]]; reflexivity. Qed.

Lemma pop_push (f : frame) (n : value) (tr : trace) :
  pop (push f n) tr = (tr, inr f).
Proof.
  unfold pop, push. rewrite current_update.
  destruct (current f ++ [n]) eqn:E.
  - now destruct (current f).
  - rewrite <- E, removelast_last, update_update, update_current.
    reflexivity.
Qed.

End Frames.

(** ** Values the scan passes through *)

Section Inert.

Lemma for_each_visit_inert (l : list value) :
  Forall (fun v => inert v = true ->
                   forall partial fr tr,
                     visit v (partial, fr) tr = (tr, inr (partial, fr))) l ->
  forallb inert l = true ->
  forall partial fr tr,
    for_each visit l (partial, fr) tr = (tr, inr (partial, fr)).
Proof.
  induction 1 as [|v l Hv Hl IH]; intros I partial fr tr.
  - reflexivity.
  - simpl in I. apply andb_true_iff in I. destruct I as [Iv Il].
    simpl. unfold bind. rewrite (Hv Iv). now apply IH.
Qed.

Lemma visit_inert (v : value) :
  inert v = true ->
  forall partial fr tr, visit v (partial, fr) tr = (tr, inr (partial, fr)).
Proof.
  induction v as [| | | | |l IH|cls attrs children IH] using value_induction;
    intros I partial fr tr; try reflexivity.
  - simpl in I. simpl. unfold bind.
    rewrite (for_each_visit_inert IH I). simpl.
    now rewrite app_nil_r, update_current.
  - destruct cls; try discriminate I. simpl in I.
    destruct children as [|c cs]; [reflexivity|].
    cbn -[for_each]. unfold bind. cbn -[for_each].
    rewrite (for_each_visit_inert IH I). simpl.
    now rewrite app_nil_r, update_current.
Qed.

End Inert.

(** ** Calls of the permission-enforcement methods *)

Section Calls.

Lemma scan_inert (l : list value) :
  forallb inert l = true ->
  forall partial fr tr,
    for_each visit l (partial, fr) tr = (tr, inr (partial, fr)).
Proof.
  intros I. apply for_each_visit_inert; [|exact I].
  apply Forall_forall. intros v _. apply visit_inert.
Qed.



End Calls.



(** ** The method of the camera unit *)

(** C1, as the code has it.  For the unit with package [com.app],
    class [Camera] and inside it [void takePhoto()] carrying the
    permission marker with the single constant
    [Manifest.permission.CAMERA] (imports, class documentation and
    method body being values the scan passes through): the scan shows
    nothing and returns exactly one record, with [permissions] the one
    constant, [needsAllOf] false, and the signature
    ["com.app.Camera.takePhoto() -> void"]: the name of the method is
    on the path when its signature is built. *)
Theorem camera_requirement (imports : list value)
    (class_documentation body : value) (tr : trace) :
  forallb inert imports = true ->
  inert class_documentation = true ->
  inert body = true ->
  scan_tree (camera_unit_with imports class_documentation body) tr
  = (tr, inr ([Requires (mkRequiresPermission
                           (VStr "takePhoto")
                           "com.app.Camera.takePhoto() -> void" true
                           ["Manifest.permission.CAMERA"] false)],
              mkFrame [] (Some [VStr "com.app"]))).
Proof.
  intros Ii Id Ib. unfold scan_tree, camera_unit_with, Tree.CompilationUnit.
  cbn [children_of]. unfold bind at 1. unfold ret at 1.
  unfold son_of_a_class. cbn [for_each]. unfold bind at 1.
  change (visit (Tree.Package VNone VNone "com.app") ([], enter []) tr)
    with (tr, @inr exn _ (@nil record, mkFrame [] (Some [VStr "com.app"]))).
  unfold bind at 1. rewrite (visit_inert (VList imports) Ii).
  unfold bind at 1.
  cbn. unfold bind. cbn. rewrite (visit_inert _ Id). cbn.
  rewrite (visit_inert _ Ib). reflexivity.
Qed.

(** The unit with one import, a documented class and the body [{}]. *)
Lemma camera_requirement_witness :
  scan_tree
    (camera_unit_with [Tree.Import "android.Manifest" false false]
                      (VStr "/** The camera. */") (VList [])) []
  = ([], inr ([Requires (mkRequiresPermission
                           (VStr "takePhoto")
                           "com.app.Camera.takePhoto() -> void" true
                           ["Manifest.permission.CAMERA"] false)],
              mkFrame [] (Some [VStr "com.app"]))).
Proof.
  exact (@camera_requirement [Tree.Import "android.Manifest" false false]
           (VStr "/** The camera. */") (VList []) []
           eq_refl eq_refl eq_refl).
Defined.

(** C1 as stated fails on [Samples.camera_unit]: the one record of
    [takePhoto] has the signature with the method's name in it, not
    ["com.app.Camera() -> void"]. *)
Lemma camera_signature_names_the_method :
  exists r f,
    run (scan_tree Samples.camera_unit) = ([], inr ([Requires r], f)) /\
    rp_qualifier r = "com.app.Camera.takePhoto() -> void"%string /\
    rp_qualifier r <> "com.app.Camera() -> void"%string.
Proof.
  eexists. eexists. split; [vm_compute; reflexivity|].
  split; [reflexivity | discriminate].
Qed.

(** ** The path across subtrees *)

Section Balance.

Lemma passed_after (v : value) (f : frame) : passed (after v f) = passed f.
Proof. unfold after. now destruct (package_name v). Qed.

Lemma passed_after_all (l : list value) (f : frame) :
  passed (fold_left (fun f v => after v f) l f) = passed f.
Proof.
  revert f. induction l as [|v l IH]; intros f; simpl; [reflexivity|].
  now rewrite IH, passed_after.
Qed.

Lemma current_after_all (l : list value) (f : frame) :
  current (fold_left (fun f v => after v f) l f)
  = match last_package l with
    | Some n => [n]
    | None => current f
    end.
Proof.
  revert f. induction l as [|v l IH]; intros f; simpl; [reflexivity|].
  rewrite IH. destruct (last_package l); [reflexivity|].
  unfold after. now destruct (package_name v).
Qed.

(** The loop takes the frame through the visits one after the other. *)
Lemma scan_frames (l : list value) :
  Forall (fun v => well_formed v = true ->
                   forall partial fr tr tr' partial' fr',
                     visit v (partial, fr) tr = (tr', inr (partial', fr')) ->
                     fr' = after v fr) l ->
  forallb well_formed l = true ->
  forall partial fr tr tr' partial' fr',
    for_each visit l (partial, fr) tr = (tr', inr (partial', fr')) ->
    fr' = fold_left (fun f v => after v f) l fr.
Proof.
  induction 1 as [|v l Hv Hl IH]; intros W partial fr tr tr' partial' fr' E.
  - apply ret_inv in E. destruct E as [_ E]. now injection E as _ ->.
  - simpl in W. apply andb_true_iff in W. destruct W as [Wv Wl].
    simpl in E. apply bind_inv in E.
    destruct E as [[partial1 fr1] [tr1 [E1 E]]].
    apply (Hv Wv) in E1. subst fr1. simpl. eapply IH; eassumption.
Qed.

End Balance.

Section BalanceVisit.

(** The loop over the children of a node or over a list, started on
    the list [qualifier] names, hands that list back as it was. *)
Lemma inner_loop_restores (l : list value) (q : list value) :
  Forall (fun v => well_formed v = true ->
                   forall partial fr tr tr' partial' fr',
                     visit v (partial, fr) tr = (tr', inr (partial', fr')) ->
                     fr' = after v fr) l ->
  forallb well_formed l = true ->
  forall tr tr' found inner,
    for_each visit l ([], enter q) tr = (tr', inr (found, inner)) ->
    passed inner = q.
Proof.
  intros IH W tr tr' found inner E.
  rewrite (@scan_frames _ IH W _ _ _ _ _ _ E). now rewrite passed_after_all.
Qed.

Lemma visit_halves (child : value) (partial : list record) (fr : frame)
    (tr : trace) :
  visit child (partial, fr) tr
  = bind (entered child partial fr)
         (fun st => let (p, f) := st in descended child p f) tr.
Proof.
  destruct child as [| | | | | |cls attrs children]; reflexivity.
Qed.

(** After the first half, the frame of a node that pushes has the
    node's name pushed on the list, and the frame of any other node is
    the frame after the whole visit. *)
Lemma entered_frame cls attrs children partial fr tr tr1 partial1 fr1 :
  entered (VNode cls attrs children) partial fr tr
    = (tr1, inr (partial1, fr1)) ->
  if pushes cls then exists n, fr1 = push fr n
  else fr1 = after (VNode cls attrs children) fr.
Proof.
  intros E. unfold after, package_name.
  destruct cls; cbn [entered pushes isinstance node_class_eqb] in *.
  - apply bind_inv in E. destruct E as [n [t [G E]]].
    apply ret_inv in E. destruct E as [_ E]. injection E as _ ->.
    unfold getattr in G. destruct (attribute _ "name") as [x|];
      [|discriminate G].
    apply ret_inv in G. now destruct G as [_ ->].
  - apply bind_inv in E. destruct E as [n [t [G E]]].
    apply ret_inv in E. destruct E as [_ E]. injection E as _ ->.
    now exists n.
  - apply bind_inv in E. destruct E as [n [t [G E]]].
    apply bind_inv in E. destruct E as [found [t' [F E]]].
    apply ret_inv in E. destruct E as [_ E]. injection E as _ ->.
    now exists n.
  - apply bind_inv in E. destruct E as [found [t [F E]]].
    apply ret_inv in E. destruct E as [_ E]. now injection E as _ ->.
  - apply bind_inv in E. destruct E as [out [t [F E]]].
    apply ret_inv in E. destruct E as [_ E]. now injection E as _ ->.
  - apply ret_inv in E. destruct E as [_ E]. now injection E as _ ->.
Qed.

(** After the second half, a node that pushes and has children has
    popped once from the frame it descended with; any other node has
    the frame it descended with. *)
Lemma descended_frame cls attrs children partial fr tr tr' partial' fr' :
  Forall (fun v => well_formed v = true ->
                   forall partial fr tr tr' partial' fr',
                     visit v (partial, fr) tr = (tr', inr (partial', fr')) ->
                     fr' = after v fr) children ->
  well_formed (VNode cls attrs children) = true ->
  descended (VNode cls attrs children) partial fr tr
    = (tr', inr (partial', fr')) ->
  if pushes cls then pop fr tr' = (tr', inr fr') else fr' = fr.
Proof.
  intros IH W E. simpl in W. apply andb_true_iff in W.
  destruct W as [Wp Wc]. destruct children as [|c cs].
  - destruct (pushes cls); [discriminate Wp|].
    apply ret_inv in E. destruct E as [_ E]. now injection E as _ ->.
  - cbn [descended] in E.
    apply bind_inv in E. destruct E as [[found inner] [t [L E]]].
    rewrite (@inner_loop_restores _ _ IH Wc _ _ _ _ L) in E.
    rewrite update_current in E. destruct (pushes cls).
    + apply bind_inv in E. destruct E as [f [t' [P E]]].
      apply ret_inv in E. destruct E as [-> E]. injection E as _ <-.
      unfold pop in *. destruct (current fr); [discriminate P|].
      apply ret_inv in P. destruct P as [_ ->]. reflexivity.
    + apply ret_inv in E. destruct E as [_ E]. now injection E as _ ->.
Qed.

(** The frame after a visit that returns. *)
Lemma visit_frame (v : value) :
  well_formed v = true ->
  forall partial fr tr tr' partial' fr',
    visit v (partial, fr) tr = (tr', inr (partial', fr')) ->
    fr' = after v fr.
Proof.
  induction v as [| | | | |l IH|cls attrs children IH] using value_induction;
    intros W partial fr tr tr' partial' fr' E;
    try (cbn in E; unfold bind, ret in E; injection E as _ _ <-; reflexivity).
  - cbn -[for_each] in E.
    apply bind_inv in E. destruct E as [[partial1 fr1] [tr1 [E1 E]]].
    apply ret_inv in E. destruct E as [_ E]. injection E as _ <-.
    apply bind_inv in E1. destruct E1 as [[found inner] [tr2 [E2 E1]]].
    apply ret_inv in E1. destruct E1 as [_ E1]. injection E1 as _ ->.
    simpl in W.
    rewrite (@inner_loop_restores _ _ IH W _ _ _ _ E2).
    now rewrite update_current.
  - rewrite visit_halves in E.
    apply bind_inv in E. destruct E as [[partial1 fr1] [tr1 [E1 E]]].
    apply entered_frame in E1.
    eapply descended_frame in E; [|exact IH|exact W].
    destruct (pushes cls) eqn:P.
    + destruct E1 as [n ->]. rewrite pop_push in E. injection E as <-.
      unfold after, package_name. now destruct cls.
    + now subst.
Qed.

End BalanceVisit.

(** C7, as the code has it.  For values whose class and method nodes
    have children, as all nodes of the parser do, and for scans that
    return.  After fully visiting any subtree other than a package
    declaration, the frame, and so the path and its length, is what it
    was before entering the subtree; a package declaration replaces the
    path by the single segment of its name, which nothing pops.  So
    after [son_of_a_class] the path is the one it started with when no
    package declaration is among the children, and is the one segment
    of the last package declaration otherwise, of length one and not
    zero; the list the caller handed in holds what it held before in
    both cases. *)
Theorem qualifier_path :
  (forall child partial fr tr tr' partial' fr',
      well_formed child = true ->
      visit child (partial, fr) tr = (tr', inr (partial', fr')) ->
      passed fr' = passed fr /\
      match package_name child with
      | None => fr' = fr /\
                List.length (current fr') = List.length (current fr)
      | Some n => current fr' = [n] /\ List.length (current fr') = 1
      end) /\
  (forall children qualifier tr tr' partial f,
      forallb well_formed children = true ->
      son_of_a_class children qualifier tr = (tr', inr (partial, f)) ->
      passed f = qualifier /\
      current f = match last_package children with
                  | Some n => [n]
                  | None => qualifier
                  end).
Proof.
  split.
  - intros child partial fr tr tr' partial' fr' W E.
    rewrite (visit_frame child W _ _ _ E). split; [apply passed_after|].
    unfold after. destruct (package_name child); now split.
  - intros children qualifier tr tr' partial f W E.
    unfold son_of_a_class in E.
    assert (f = fold_left (fun f v => after v f) children (enter qualifier))
      as ->.
    { eapply scan_frames; [|exact W|exact E].
      apply Forall_forall. intros v _. apply visit_frame. }
    rewrite passed_after_all, current_after_all. now split.
Qed.

(** The scan of [Samples.nested_unit], a method in a class in a class
    without package: the path ends empty, as it started. *)
Lemma qualifier_path_witness :
  run (scan_tree Samples.nested_unit)
  = ([], inr ([Requires (mkRequiresPermission
                           (VStr "takePhoto")
                           "Outer.Inner.takePhoto() -> void" true
                           ["Manifest.permission.CAMERA"] false)],
              mkFrame [] None)) /\
  passed (mkFrame [] None) = [] /\ current (mkFrame [] None) = [].
Proof.
  split; [reflexivity|].
  exact (proj2 qualifier_path
           [VNone; VList [];
            VList [Tree.Class [] [] VNone "Outer"
                     [Tree.Class [] [] VNone "Inner" [Samples.takePhoto]]]]
           [] [] []
           [Requires (mkRequiresPermission
                        (VStr "takePhoto")
                        "Outer.Inner.takePhoto() -> void" true
                        ["Manifest.permission.CAMERA"] false)]
           (mkFrame [] None) eq_refl eq_refl).
Defined.

(** C7 as stated fails on [Samples.camera_unit]: the path is empty
    before the scan, and after it the variable [qualifier] of the scan
    names the list with the package segment, of length one. *)
Lemma package_segment_stays :
  exists partial f,
    run (scan_tree Samples.camera_unit) = ([], inr (partial, f)) /\
    List.length (current (enter [])) = 0 /\
    List.length (current f) = 1.
Proof.
  eexists. eexists. split; [vm_compute; reflexivity|].
  split; reflexivity.
Qed.

(** * Further properties *)

(** ** The signature builder *)

Section Builder.
Import Shape.

Lemma strings_of_strings (l : list string) (tr : trace) :
  strings_of (map VStr l) tr = (tr, inr l).
Proof.
  induction l as [|x l IH]; simpl; [reflexivity|].
  unfold bind. now rewrite IH.
Qed.

Lemma join_values_strings (sep : string) (l : list string) (tr : trace) :
  join_values sep (map VStr l) tr = (tr, inr (PyStr.join sep l)).
Proof. unfold join_values, bind. now rewrite strings_of_strings. Qed.

Lemma render_parameters_run (ps : list (string * value * string))
    (acc : list string) (tr : trace) :
  for_each render_parameter (map formal ps) acc tr
  = (tr, inr (acc ++ map formal_text ps)).
Proof.
  revert acc. induction ps as [|[[ty args] n] ps IH]; intros acc; simpl.
  - now rewrite app_nil_r.
  - unfold bind at 1. cbn -[for_each]. rewrite IH.
    now rewrite <- app_assoc.
Qed.

Lemma argument_names_run (args : list (string * value)) (acc : list value)
    (tr : trace) :
  for_each argument_name (map type_argument args) acc tr
  = (tr, inr (acc ++ map VStr (map fst args))).
Proof.
  revert acc. induction args as [|[a inner] args IH]; intros acc; simpl.
  - now rewrite app_nil_r.
  - unfold bind at 1. cbn -[for_each]. rewrite IH.
    now rewrite <- app_assoc.
Qed.

Lemma appended_not_empty (t : string) (c : ascii) (s : string) :
  String.eqb (t ++ String c s) "" = false.
Proof. now destruct t. Qed.

End Builder.

(** The builder on a method declaration, by its parts. *)
Lemma method_signature_run (documentation : value) (modifiers : list string)
    (annotations : list value) (name : string)
    (parameters : list (string * value * string))
    (return_type : option (string * list (string * value)))
    (body : value) (path : list string) (tr : trace) :
  get_name_and_qualifier
    (Tree.Method documentation modifiers annotations
       (Shape.return_node return_type) name
       (map Shape.formal parameters) body)
    (map VStr path) tr
  = (tr, inr (VStr name,
              (PyStr.join "." path ++ "("
                 ++ PyStr.join ", " (map Shape.formal_text parameters)
                 ++ ") -> " ++ Shape.return_text return_type)%string)).
Proof.
  destruct parameters as [|[[ty a] n] ps];
    destruct return_type as [[t [|[arg inner] args]]|];
    cbn; unfold bind; cbn.
  all: rewrite ?render_parameters_run; cbn.
  all: rewrite ?argument_names_run; cbn.
  all: try change (VStr arg :: map VStr (map fst args))
         with (map VStr (arg :: map fst args)).
  all: rewrite ?join_values_strings; cbn.
  all: rewrite ?appended_not_empty; cbn.
  all: rewrite ?join_values_strings; cbn.
  all: rewrite ?appended_not_empty; cbn.
  all: try (destruct (String.eqb t ""); cbn).
  all: repeat (rewrite !sapp_assoc; cbn [append]).
  all: reflexivity.
Qed.

(** X1.  The builder on a method declaration: the name is the method's
    name, and the signature is the dotted path, then the parameters in
    brackets, each as ["<type> <name>"] and joined by [", "], then
    [" -> "] and the name of the return type ([void] without one)
    followed by its type arguments in angle brackets, joined by [", "].
    Type arguments of parameter types, and type arguments of type
    arguments, do not show; nothing is raised or shown. *)
Theorem method_signature (documentation : value) (modifiers : list string)
    (annotations : list value) (name : string)
    (parameters : list (string * value * string))
    (return_type : option (string * list (string * value)))
    (body : value) (path : list string) (tr : trace) :
  get_name_and_qualifier
    (Tree.Method documentation modifiers annotations
       (Shape.return_node return_type) name
       (map Shape.formal parameters) body)
    (map VStr path) tr
  = (tr, inr (VStr name,
              (PyStr.join "." path ++ "("
                 ++ PyStr.join ", " (map Shape.formal_text parameters)
                 ++ ") -> " ++ Shape.return_text return_type)%string)).
Proof. apply method_signature_run. Qed.

Section BuilderErrors.
Import Shape.

Lemma for_each_raises {A S : Type} (body : A -> S -> M S)
    (xs : list A) (x : A) (ys : list A) (s s1 : S) (tr tr1 tr2 : trace)
    (e : exn) :
  for_each body xs s tr = (tr1, inr s1) ->
  body x s1 tr1 = (tr2, inl e) ->
  for_each body (xs ++ x :: ys) s tr = (tr2, inl e).
Proof.
  intros R F. rewrite for_each_app. unfold bind at 1. rewrite R.
  simpl. unfold bind. now rewrite F.
Qed.

End BuilderErrors.

(** X2.  The builder on a method whose return type has, among its type
    arguments, one without a type of its own (the wildcard [?]): the
    name of that argument's type is asked of [None], and the builder
    raises [AttributeError], whatever stands before and after the
    wildcard. *)
Theorem wildcard_return_argument (documentation : value)
    (modifiers : list string) (annotations : list value) (name : string)
    (parameters : list (string * value * string)) (t : string)
    (before : list (string * value)) (behind : list value)
    (body : value) (path : list string) (tr : trace) :
  get_name_and_qualifier
    (Tree.Method documentation modifiers annotations
       (Tree.ReferenceType t
          (VList (map Shape.type_argument before
                    ++ Tree.TypeArgument VNone :: behind)))
       name (map Shape.formal parameters) body)
    (map VStr path) tr
  = (tr, inl (AttributeError "name")).
Proof.
  remember (map Shape.type_argument before ++ Tree.TypeArgument VNone :: behind)
    as args eqn:A.
  assert (match args with [] => false | _ => true end = true) as T
      by (subst args; now destruct before).
  destruct parameters as [|[[ty a] n] ps]; cbn; unfold bind; cbn.
  all: rewrite ?render_parameters_run; cbn.
  all: rewrite T; cbn.
  all: assert (for_each argument_name args [] tr
               = (tr, inl (AttributeError "name"))) as R
         by (subst args;
             eapply for_each_raises;
             [apply argument_names_run | reflexivity]).
  all: now rewrite R.
Qed.

(** X3.  The builder on a field declaration with one declarator: the
    name is the variable's name, and the signature is the dotted path
    with that name as its last segment, then [" -> "] and the name of
    the declared type, without its type arguments; the initializer is
    not looked at, and nothing is raised or shown. *)
Theorem field_signature (documentation : value) (modifiers : list string)
    (annotations : list value) (t : string) (type_arguments : value)
    (v : string) (initializer : value) (path : list string) (tr : trace) :
  get_name_and_qualifier
    (Tree.Field documentation modifiers annotations
       (Tree.ReferenceType t type_arguments)
       [Tree.VariableDeclarator v initializer])
    (map VStr path) tr
  = (tr, inr (VStr v,
              (PyStr.join "." (path ++ [v]) ++ " -> " ++ t)%string)).
Proof.
  cbn. unfold bind. cbn.
  replace (map VStr path ++ [VStr v]) with (map VStr (path ++ [v]))
    by now rewrite map_app.
  rewrite join_values_strings. cbn. now rewrite sapp_assoc.
Qed.

(** ** One constant as the payload *)

(** The permission extractor on one constant. *)
Lemma single_constant_run (element : value) (qualifier : list value)
    (marker : string) (c : string * string)
    (name : value) (signature : string) (tr tr' : trace) :
  get_name_and_qualifier element qualifier tr = (tr', inr (name, signature)) ->
  parse_requirements element (Tree.Annotation marker (Payload.constant c))
                     qualifier tr
  = (tr', inr (mkRequiresPermission
                 name signature (isinstance element MethodDeclaration)
                 [Payload.constant_name c] false)).
Proof.
  intros G. erewrite parse_requirements_with by exact G.
  destruct c as [q m]. cbn. unfold bind. cbn.
  unfold Payload.constant_name. cbn. now rewrite sapp_assoc.
Qed.

(** X4.  The permission extractor on a marker whose payload is one
    qualified constant, on a declaration whose name and signature the
    builder gives: the record has that constant as its only permission
    and [needsAllOf] false. *)
Theorem single_constant_permission (element : value) (qualifier : list value)
    (marker : string) (c : string * string)
    (name : value) (signature : string) (tr tr' : trace) :
  get_name_and_qualifier element qualifier tr = (tr', inr (name, signature)) ->
  parse_requirements element (Tree.Annotation marker (Payload.constant c))
                     qualifier tr
  = (tr', inr (mkRequiresPermission
                 name signature (isinstance element MethodDeclaration)
                 [Payload.constant_name c] false)).
Proof. apply single_constant_run. Qed.

(** [@RequiresPermission(Manifest.permission.CAMERA)] on the field
    [Samples.max_size]. *)
Lemma single_constant_permission_witness :
  parse_requirements (Samples.max_size VNone)
    (Tree.Annotation "RequiresPermission"
       (Payload.constant ("Manifest.permission", "CAMERA")))
    [VStr "com.app"; VStr "Limits"] []
  = ([], inr (mkRequiresPermission
                (VStr "MAX_SIZE") "com.app.Limits.MAX_SIZE -> int" false
                ["Manifest.permission.CAMERA"] false)).
Proof.
  exact (@single_constant_permission (Samples.max_size VNone)
           [VStr "com.app"; VStr "Limits"] "RequiresPermission"
           ("Manifest.permission", "CAMERA")%string
           (VStr "MAX_SIZE") "com.app.Limits.MAX_SIZE -> int" [] [] eq_refl).
Defined.

(** X5.  The permission extractor on a payload of named elements, one
    of which holds a single qualified constant instead of an array of
    them ([value = Manifest.permission.CAMERA]): the groups before it
    are gone through, then [AttributeError] is raised, the constant
    having no [values]; no record is returned. *)
Theorem named_constant_raises (element : value) (qualifier : list value)
    (marker : string) (groups : list (string * list (string * string)))
    (key : string) (c : string * string) (behind : list value)
    (name : value) (signature : string) (tr tr' : trace) :
  get_name_and_qualifier element qualifier tr = (tr', inr (name, signature)) ->
  parse_requirements element
    (Tree.Annotation marker
       (VList (map Payload.group groups
                 ++ Tree.ElementValuePair key (Payload.constant c) :: behind)))
    qualifier tr
  = (tr', inl (AttributeError "values")).
Proof.
  intros G. erewrite parse_requirements_with by exact G. cbv zeta.
  replace (truthy (VList (map Payload.group groups
             ++ Tree.ElementValuePair key (Payload.constant c) :: behind)))
    with true by now destruct groups.
  cbv iota. eapply for_each_raises.
  - apply requirement_loop_run.
  - reflexivity.
Qed.

(** [@RequiresPermission(value = Manifest.permission.CAMERA,
    conditional = true)] on [Samples.takePhoto]. *)
Lemma named_constant_raises_witness :
  parse_requirements Samples.takePhoto
    (Tree.Annotation "RequiresPermission"
       (VList [Tree.ElementValuePair "value"
                 (Payload.constant ("Manifest.permission", "CAMERA"));
               Tree.ElementValuePair "conditional" (Tree.Literal "true")]))
    [VStr "com.app"; VStr "Camera"; VStr "takePhoto"] []
  = ([], inl (AttributeError "values")).
Proof.
  exact (@named_constant_raises Samples.takePhoto
           [VStr "com.app"; VStr "Camera"; VStr "takePhoto"]
           "RequiresPermission" [] "value"
           ("Manifest.permission", "CAMERA")%string
           [Tree.ElementValuePair "conditional" (Tree.Literal "true")]
           (VStr "takePhoto") "com.app.Camera.takePhoto() -> void" [] []
           eq_refl).
Defined.

(** ** The annotations of one declaration *)

Section Markers.

Lemma unmarked_annotation element qualifier n e partial tr :
  n <> "UnsupportedAppUsage"%string -> n <> "RequiresPermission"%string ->
  annotation_records element qualifier (Tree.Annotation n e) partial tr
  = (tr, inr partial).
Proof.
  intros N1 N2. apply String.eqb_neq in N1. apply String.eqb_neq in N2.
  unfold annotation_records. cbn. unfold bind. cbn. now rewrite N1, N2.
Qed.

Lemma unmarked_loop element qualifier (l : list (string * value)) tr :
  Forall (fun a => fst a <> "UnsupportedAppUsage"%string /\
                   fst a <> "RequiresPermission"%string) l ->
  forall partial,
    for_each (annotation_records element qualifier)
      (map (fun a => Tree.Annotation (fst a) (snd a)) l) partial tr
    = (tr, inr partial).
Proof.
  induction 1 as [|[n e] l [N1 N2] F IH]; intros partial; [reflexivity|].
  simpl. unfold bind. rewrite unmarked_annotation by assumption.
  apply IH.
Qed.

(** One turn of the loop over the annotations adds the record of a
    marker, and nothing for another annotation. *)
Lemma annotation_records_kinds element qualifier annotation partial tr tr'
    partial' :
  annotation_records element qualifier annotation partial tr
    = (tr', inr partial') ->
  exists found,
    partial' = partial ++ found /\
    map kind_of found = match marker_kind annotation with
                        | Some k => [k]
                        | None => []
                        end.
Proof.
  unfold annotation_records, marker_kind, getattr. intros E.
  apply bind_inv in E. destruct E as [n [t [N E]]].
  destruct (attribute annotation "name") as [x|]; [|discriminate N].
  apply ret_inv in N. destruct N as [-> ->].
  destruct (eq_str x "UnsupportedAppUsage").
  - apply bind_inv in E. destruct E as [u [t' [_ E]]].
    apply ret_inv in E. destruct E as [_ ->]. now exists [Unsupported u].
  - destruct (eq_str x "RequiresPermission").
    + apply bind_inv in E. destruct E as [r [t' [_ E]]].
      apply ret_inv in E. destruct E as [_ ->]. now exists [Requires r].
    + apply ret_inv in E. destruct E as [_ ->]. exists [].
      now rewrite app_nil_r.
Qed.

Lemma annotation_loop_kinds element qualifier annotations :
  forall partial tr tr' partial',
    for_each (annotation_records element qualifier) annotations partial tr
      = (tr', inr partial') ->
    exists found,
      partial' = partial ++ found /\
      map kind_of found = marker_kinds annotations.
Proof.
  induction annotations as [|a annotations IH];
    intros partial tr tr' partial' E; simpl in E.
  - apply ret_inv in E. destruct E as [_ ->]. exists [].
    now rewrite app_nil_r.
  - apply bind_inv in E. destruct E as [p1 [t [A E]]].
    apply annotation_records_kinds in A. destruct A as [f1 [-> K1]].
    apply IH in E. destruct E as [f2 [-> K2]].
    exists (f1 ++ f2). rewrite app_assoc. split; [reflexivity|].
    unfold marker_kinds in *. simpl. now rewrite map_app, K1, K2.
Qed.

End Markers.

(** X6.  A declaration none of whose annotations is named by a marker
    gives no record, and the builder is not run for it: nothing is
    shown, not even the breakpoint of a field with several declarators,
    and nothing is raised, whatever the payloads of the annotations. *)
Theorem unmarked_declaration (element : value) (qualifier : list value)
    (annotations : list (string * value)) (tr : trace) :
  attribute element "annotations"
    = Some (VList (map (fun a => Tree.Annotation (fst a) (snd a))
                       annotations)) ->
  Forall (fun a => fst a <> "UnsupportedAppUsage"%string /\
                   fst a <> "RequiresPermission"%string) annotations ->
  parse_element_annotations element qualifier tr = (tr, inr []).
Proof.
  intros A F. unfold parse_element_annotations, getattr. rewrite A.
  destruct annotations as [|a annotations]; [reflexivity|].
  transitivity
    (for_each (annotation_records element qualifier)
       (map (fun a => Tree.Annotation (fst a) (snd a)) (a :: annotations))
       [] tr); [reflexivity|].
  now apply unmarked_loop.
Qed.

(** [@Deprecated @SuppressWarnings("unchecked") int a, b;]: no record
    and no breakpoint. *)
Lemma unmarked_declaration_witness :
  parse_element_annotations
    (Tree.Field VNone []
       [Tree.Annotation "Deprecated" VNone;
        Tree.Annotation "SuppressWarnings" (Tree.Literal "unchecked")]
       (Tree.BasicType "int")
       [Tree.VariableDeclarator "a" VNone; Tree.VariableDeclarator "b" VNone])
    [VStr "com.app"; VStr "Camera"] []
  = ([], inr []).
Proof.
  refine (@unmarked_declaration
            (Tree.Field VNone []
               [Tree.Annotation "Deprecated" VNone;
                Tree.Annotation "SuppressWarnings" (Tree.Literal "unchecked")]
               (Tree.BasicType "int")
               [Tree.VariableDeclarator "a" VNone;
                Tree.VariableDeclarator "b" VNone])
            [VStr "com.app"; VStr "Camera"]
            [("Deprecated", VNone);
             ("SuppressWarnings", Tree.Literal "unchecked")]%string []
            eq_refl _).
  repeat constructor; discriminate.
Defined.

(** X7.  When the extraction for a declaration returns, it has one
    record for every annotation named by a marker and none for the
    others, in the order of the annotations: a usage record for
    [UnsupportedAppUsage], a permission record for
    [RequiresPermission]. *)
Theorem records_follow_annotations (element : value) (qualifier : list value)
    (annotations : list value) (records : list record) (tr tr' : trace) :
  attribute element "annotations" = Some (VList annotations) ->
  parse_element_annotations element qualifier tr = (tr', inr records) ->
  map kind_of records = marker_kinds annotations.
Proof.
  intros A E. unfold parse_element_annotations, getattr in E. rewrite A in E.
  destruct annotations as [|a annotations].
  - change (ret [] tr = (tr', @inr exn _ records)) in E.
    apply ret_inv in E. now destruct E as [_ ->].
  - change (for_each (annotation_records element qualifier)
              (a :: annotations) [] tr = (tr', inr records)) in E.
    apply annotation_loop_kinds in E. now destruct E as [found [-> K]].
Qed.

(** [Samples.max_size] carrying a usage marker, [@Deprecated] and a
    permission marker, in this order. *)
Lemma records_follow_annotations_witness :
  let field :=
    Tree.Field VNone ["public"]
      [Samples.usage_marker;
       Tree.Annotation "Deprecated" VNone;
       Tree.Annotation "RequiresPermission"
         (Tree.MemberReference "Manifest.permission" "CAMERA")]
      (Tree.BasicType "int") [Tree.VariableDeclarator "MAX_SIZE" VNone] in
  let records :=
    [Unsupported (mkUnsupportedAppUsage
                    (VStr "MAX_SIZE") "com.app.Limits.MAX_SIZE -> int" false
                    (VInt 0) (VStr "Build.VERSION_CODES.P") "");
     Requires (mkRequiresPermission
                 (VStr "MAX_SIZE") "com.app.Limits.MAX_SIZE -> int" false
                 ["Manifest.permission.CAMERA"] false)] in
  parse_element_annotations field [VStr "com.app"; VStr "Limits"] []
    = ([], inr records) /\
  map kind_of records = [Usage; Permission].
Proof.
  split; [reflexivity|].
  exact (@records_follow_annotations
           (Tree.Field VNone ["public"]
              [Samples.usage_marker;
               Tree.Annotation "Deprecated" VNone;
               Tree.Annotation "RequiresPermission"
                 (Tree.MemberReference "Manifest.permission" "CAMERA")]
              (Tree.BasicType "int") [Tree.VariableDeclarator "MAX_SIZE" VNone])
           [VStr "com.app"; VStr "Limits"]
           [Samples.usage_marker;
            Tree.Annotation "Deprecated" VNone;
            Tree.Annotation "RequiresPermission"
              (Tree.MemberReference "Manifest.permission" "CAMERA")]
           _ [] [] eq_refl eq_refl).
Defined.

Section Described.

(** What the loops of the two extractors leave alone. *)
Definition permission_of (name : value) (signature : string) (b : bool)
    (t : RequiresPermission) : Prop :=
  rp_name t = name /\ rp_qualifier t = signature /\ rp_isMethod t = b.

Definition usage_of (name : value) (signature : string) (b : bool)
    (t : UnsupportedAppUsage) : Prop :=
  ua_name t = name /\ ua_qualifier t = signature /\ ua_isMethod t = b.

Lemma append_constant_keeps name signature b val target tr tr' t' :
  permission_of name signature b target ->
  append_constant val target tr = (tr', inr t') ->
  permission_of name signature b t'.
Proof.
  intros P E. unfold append_constant in E.
  apply bind_inv in E. destruct E as [q [t1 [_ E]]].
  apply bind_inv in E. destruct E as [s [t2 [_ E]]].
  apply bind_inv in E. destruct E as [m [t3 [_ E]]].
  apply bind_inv in E. destruct E as [p [t4 [_ E]]].
  apply ret_inv in E. destruct E as [_ ->]. exact P.
Qed.

Lemma requirement_element_keeps name signature b elm target tr tr' t' :
  permission_of name signature b target ->
  requirement_element elm target tr = (tr', inr t') ->
  permission_of name signature b t'.
Proof.
  intros P E. unfold requirement_element in E.
  apply bind_inv in E. destruct E as [n [t1 [_ E]]].
  apply bind_inv in E. destruct E as [v [t2 [_ E]]].
  apply bind_inv in E. destruct E as [vs [t3 [_ E]]].
  apply bind_inv in E. destruct E as [items [t4 [_ E]]].
  eapply (for_each_keeps append_constant (permission_of name signature b));
    [| |exact E].
  - intros x s t t0 s' Ps B. eapply append_constant_keeps; eassumption.
  - exact P.
Qed.

Lemma usage_element_keeps name signature b elm target tr tr' t' :
  usage_of name signature b target ->
  usage_element elm target tr = (tr', inr t') ->
  usage_of name signature b t'.
Proof.
  intros P E. unfold usage_element in E.
  apply bind_inv in E. destruct E as [n [t1 [_ E]]].
  destruct (eq_str n "minTargetSdk" || eq_str n "maxTargetSdk").
  - apply bind_inv in E. destruct E as [v [t2 [_ E]]].
    apply bind_inv in E. destruct E as [q [t3 [_ E]]].
    apply bind_inv in E. destruct E as [s [t4 [_ E]]].
    apply bind_inv in E. destruct E as [m [t5 [_ E]]].
    apply bind_inv in E. destruct E as [c [t6 [_ E]]].
    apply ret_inv in E. destruct E as [_ ->].
    destruct (eq_str n "minTargetSdk"); exact P.
  - apply ret_inv in E. now destruct E as [_ ->].
Qed.

Lemma mine_documentation_keeps name signature b element target tr tr' t' :
  usage_of name signature b target ->
  mine_documentation element target tr = (tr', inr t') ->
  usage_of name signature b t'.
Proof.
  intros P E. unfold mine_documentation in E.
  apply bind_inv in E. destruct E as [doc [t1 [_ E]]].
  apply bind_inv in E. destruct E as [n [t2 [_ E]]].
  destruct (truthy doc && negb (n =? 0)%nat).
  - destruct doc; try discriminate E.
    destruct (mined_note s); apply ret_inv in E; destruct E as [_ ->];
      exact P.
  - apply ret_inv in E. now destruct E as [_ ->].
Qed.

Lemma parse_requirements_describes element annotation qualifier tr tr' r :
  parse_requirements element annotation qualifier tr = (tr', inr r) ->
  exists t1,
    get_name_and_qualifier element qualifier tr
      = (t1, inr (rp_name r, rp_qualifier r)) /\
    rp_isMethod r = isinstance element MethodDeclaration.
Proof.
  unfold parse_requirements. intros E.
  apply bind_inv in E. destruct E as [[name signature] [t1 [G E]]].
  apply bind_inv in E. destruct E as [has [t2 [_ E]]].
  apply bind_inv in E. destruct E as [e [t3 [_ E]]].
  assert (permission_of name signature (isinstance element MethodDeclaration)
            r) as [N [S B]].
  { destruct (has && truthy e).
    - destruct e;
        try (eapply append_constant_keeps; [|exact E]; now repeat split).
      eapply (for_each_keeps requirement_element
                (permission_of name signature
                   (isinstance element MethodDeclaration))); [| |exact E].
      + intros x s t t0 s' Ps R.
        eapply requirement_element_keeps; eassumption.
      + now repeat split.
    - apply ret_inv in E. destruct E as [_ ->]. now repeat split. }
  exists t1. rewrite N, S. now split.
Qed.

Lemma parse_deprecation_describes element annotation qualifier tr tr' u :
  parse_deprecation element annotation qualifier tr = (tr', inr u) ->
  exists t1,
    get_name_and_qualifier element qualifier tr
      = (t1, inr (ua_name u, ua_qualifier u)) /\
    ua_isMethod u = isinstance element MethodDeclaration.
Proof.
  unfold parse_deprecation. intros E.
  apply bind_inv in E. destruct E as [[name signature] [t1 [G E]]].
  apply bind_inv in E. destruct E as [has [t2 [_ E]]].
  apply bind_inv in E. destruct E as [e [t3 [_ E]]].
  apply bind_inv in E. destruct E as [target [t4 [L E]]].
  assert (usage_of name signature (isinstance element MethodDeclaration)
            target) as P.
  { destruct (has && truthy e).
    - destruct e;
        try (eapply usage_element_keeps; [|exact L]; now repeat split).
      eapply (for_each_keeps usage_element
                (usage_of name signature
                   (isinstance element MethodDeclaration))); [| |exact L].
      + intros x s t t0 s' Ps R. eapply usage_element_keeps; eassumption.
      + now repeat split.
    - apply ret_inv in L. destruct L as [_ ->]. now repeat split. }
  eapply mine_documentation_keeps in E; [|exact P].
  destruct E as [N [S B]].
  exists t1. rewrite N, S. now split.
Qed.

End Described.

(** X8.  Every record the extraction returns for a declaration holds
    what the builder gives for that declaration under the path of the
    moment, as its name and signature, and tells in [isMethod] whether
    the declaration is a method; no payload and no documentation
    changes these three fields. *)
Theorem records_describe_declaration (element : value)
    (qualifier : list value) (records : list record) (tr tr' : trace) :
  parse_element_annotations element qualifier tr = (tr', inr records) ->
  Forall (fun r =>
            record_isMethod r = isinstance element MethodDeclaration /\
            exists t t',
              get_name_and_qualifier element qualifier t
              = (t', inr (record_name r, record_signature r)))
         records.
Proof.
  intros E. unfold parse_element_annotations in E.
  apply bind_inv in E. destruct E as [annotations [t1 [_ E]]].
  apply bind_inv in E. destruct E as [n [t2 [_ E]]].
  destruct (n =? 0)%nat.
  - apply ret_inv in E. destruct E as [_ ->]. constructor.
  - apply bind_inv in E. destruct E as [items [t3 [_ E]]].
    eapply (for_each_keeps (annotation_records element qualifier)
              (Forall (fun r =>
                 record_isMethod r = isinstance element MethodDeclaration /\
                 exists t t',
                   get_name_and_qualifier element qualifier t
                   = (t', inr (record_name r, record_signature r)))));
      [| |exact E]; [|constructor].
    clear. intros a partial t t' partial' P A.
    unfold annotation_records in A.
    apply bind_inv in A. destruct A as [n [t1 [_ A]]].
    destruct (eq_str n "UnsupportedAppUsage").
    + apply bind_inv in A. destruct A as [u [t2 [D A]]].
      apply ret_inv in A. destruct A as [_ ->].
      apply parse_deprecation_describes in D. destruct D as [t3 [G B]].
      apply Forall_app. split; [exact P|]. constructor; [|constructor].
      split; [exact B|]. now exists t1, t3.
    + destruct (eq_str n "RequiresPermission").
      * apply bind_inv in A. destruct A as [r [t2 [D A]]].
        apply ret_inv in A. destruct A as [_ ->].
        apply parse_requirements_describes in D. destruct D as [t3 [G B]].
        apply Forall_app. split; [exact P|]. constructor; [|constructor].
        split; [exact B|]. now exists t1, t3.
      * apply ret_inv in A. now destruct A as [_ ->].
Qed.

(** [Samples.max_size] with its usage marker. *)
Lemma records_describe_declaration_witness :
  Forall (fun r =>
            record_isMethod r = false /\
            exists t t',
              get_name_and_qualifier (Samples.max_size VNone)
                [VStr "com.app"; VStr "Limits"] t
              = (t', inr (record_name r, record_signature r)))
         [Unsupported (mkUnsupportedAppUsage
                         (VStr "MAX_SIZE") "com.app.Limits.MAX_SIZE -> int"
                         false (VInt 0) (VStr "Build.VERSION_CODES.P") "")].
Proof.
  exact (@records_describe_declaration (Samples.max_size VNone)
           [VStr "com.app"; VStr "Limits"] _ [] [] eq_refl).
Defined.

(** ** The shape of a note *)

Section NoteShape.

Lemma split_not_empty (sep : ascii) (s : string) :
  exists h rest, PyStr.split sep s = h :: rest.
Proof.
  induction s as [|c s [h [rest IH]]]; simpl.
  - now exists EmptyString, [].
  - destruct (Ascii.eqb c sep); [now eexists; eexists|].
    rewrite IH. now eexists; eexists.
Qed.

Lemma split_lines_plain (sep : ascii) (s : string) :
  forall l, In l (PyStr.split sep s) -> ~ In sep (chars l).
Proof.
  induction s as [|c s IH]; simpl; intros l I.
  - destruct I as [<- | []]. intros [].
  - destruct (Ascii.eqb c sep) eqn:E.
    + destruct I as [<- | I]; [intros [] | now apply IH].
    + destruct (PyStr.split sep s) as [|h rest].
      * destruct I as [<- | []]. intros [C | []].
        apply Ascii.eqb_neq in E. congruence.
      * destruct I as [<- | I].
        -- intros [C | C].
           ++ apply Ascii.eqb_neq in E. congruence.
           ++ apply (IH h); [now left | exact C].
        -- apply IH. now right.
Qed.

Lemma split_after_prefix (sep : ascii) (a s : string) :
  ~ In sep (chars a) ->
  exists h rest,
    PyStr.split sep s = h :: rest /\
    PyStr.split sep (a ++ s) = (a ++ h)%string :: rest.
Proof.
  intros N. destruct (split_not_empty sep s) as [h [rest S]].
  exists h, rest. split; [exact S|].
  induction a as [|c a IH]; simpl; [exact S|].
  destruct (Ascii.eqb c sep) eqn:E.
  - apply Ascii.eqb_eq in E. exfalso. apply N. now left.
  - rewrite IH; [reflexivity|]. intros I. apply N. now right.
Qed.

Lemma remove_char_app (c : ascii) (a b : string) :
  PyStr.remove_char c (a ++ b)
  = (PyStr.remove_char c a ++ PyStr.remove_char c b)%string.
Proof.
  induction a as [|x a IH]; simpl; [reflexivity|].
  destruct (Ascii.eqb x c); simpl; now rewrite IH.
Qed.

Lemma rstrip_after_prefix (a s : string) :
  forallb (fun c => negb (PyStr.is_space c)) (chars a) = true ->
  PyStr.rstrip (a ++ s) = (a ++ PyStr.rstrip s)%string.
Proof.
  unfold chars. induction a as [|c a IH]; simpl; intros F; [reflexivity|].
  apply andb_true_iff in F. destruct F as [Fc Fa].
  rewrite (IH Fa). apply negb_true_iff in Fc. rewrite Fc.
  now destruct (a ++ PyStr.rstrip s)%string.
Qed.

Lemma join_empty_cons (x : string) (l : list string) :
  PyStr.join "" (x :: l) = (x ++ PyStr.join "" l)%string.
Proof.
  destruct l as [|y l]; simpl; [now rewrite sapp_nil_r | reflexivity].
Qed.

Lemma clean_line_keeps_tag (x : string) :
  exists rest, clean_line (tag ++ x) = (tag ++ rest)%string.
Proof.
  unfold clean_line, PyStr.strip. rewrite !remove_char_app.
  change (PyStr.remove_char "/" (PyStr.remove_char "*" tag)) with tag.
  change (PyStr.lstrip (tag ++ ?y)) with (tag ++ y)%string.
  eexists. apply rstrip_after_prefix. reflexivity.
Qed.

(** A note that is assigned begins with the tag and holds no line
    feed. *)
Lemma mined_note_shape (d text : string) :
  mined_note d = Some text ->
  (exists rest, text = (tag ++ rest)%string) /\ ~ In "010"%char (chars text).
Proof.
  intros E. destruct (mined_note_some _ E) as [pre [post [P F]]].
  rewrite (mined_note_first F) in E. destruct pre; [congruence|].
  assert (text = PyStr.join ""
                   (map clean_line (PyStr.split "010" (tag ++ post))))
    as -> by congruence.
  clear E. split.
  - destruct (split_after_prefix "010" tag post) as [h [rest [_ S]]].
    { vm_compute. intuition discriminate. }
    rewrite S.
    change (map clean_line ((tag ++ h)%string :: rest))
      with (clean_line (tag ++ h) :: map clean_line rest).
    rewrite join_empty_cons.
    destruct (clean_line_keeps_tag h) as [r ->].
    rewrite sapp_assoc. now eexists.
  - intros I. apply chars_join_empty in I. destruct I as [p [Ip C]].
    apply in_map_iff in Ip. destruct Ip as [x [<- Ix]].
    unfold clean_line, PyStr.strip in C.
    apply chars_rstrip, chars_lstrip, chars_remove_char in C.
    destruct C as [_ C]. apply chars_remove_char in C. destruct C as [_ C].
    exact (split_lines_plain _ _ _ Ix C).
Qed.

End NoteShape.

(** X9.  The note of every record the usage extractor returns is
    either empty or a single line that begins with [@deprecated]: it
    holds no line feed, however many lines the documentation has after
    the tag. *)
Theorem note_is_one_tagged_line (element annotation : value)
    (qualifier : list value) (tr tr' : trace) (u : UnsupportedAppUsage) :
  parse_deprecation element annotation qualifier tr = (tr', inr u) ->
  deprecationNote u = EmptyString \/
  ((exists rest, deprecationNote u = (tag ++ rest)%string) /\
   ~ In "010"%char (chars (deprecationNote u))).
Proof.
  intros E.
  destruct (parse_deprecation_ends_mining _ _ _ _ E) as [target [t1 [T Mn]]].
  unfold mine_documentation in Mn.
  apply bind_inv in Mn. destruct Mn as [doc [t2 [_ Mn]]].
  apply bind_inv in Mn. destruct Mn as [n [t3 [_ Mn]]].
  destruct (truthy doc && negb (n =? 0)%nat).
  - destruct doc; try discriminate Mn.
    destruct (mined_note s) as [text|] eqn:N;
      apply ret_inv in Mn; destruct Mn as [_ ->].
    + right. simpl. now apply (mined_note_shape s).
    + now left.
  - apply ret_inv in Mn. destruct Mn as [_ ->]. now left.
Qed.

(** [Samples.max_size] documented by [Samples.javadoc], whose tag is
    followed by a second line. *)
Lemma note_is_one_tagged_line_witness :
  deprecationNote
    (mkUnsupportedAppUsage
       (VStr "MAX_SIZE") "com.app.Limits.MAX_SIZE -> int" false
       (VInt 0) (VStr "Build.VERSION_CODES.P") "@deprecated use ab")
    = EmptyString \/
  ((exists rest, "@deprecated use ab" = (tag ++ rest)%string) /\
   ~ In "010"%char (chars "@deprecated use ab")).
Proof.
  exact (@note_is_one_tagged_line
           (Samples.max_size (VStr Samples.javadoc)) Samples.usage_marker
           [VStr "com.app"; VStr "Limits"] [] [] _ eq_refl).
Defined.

(** ** The records gathered so far *)

Section Gathered.

(** What a computation on an empty list of records gives, put behind
    the records [p] gathered before. *)
Definition behind (p : list record) (out : trace * (exn + list record * frame))
  : trace * (exn + list record * frame) :=
  match out with
  | (t, inr (x, f)) => (t, inr (p ++ x, f))
  | (t, inl e) => (t, inl e)
  end.

Lemma entered_behind child p fr tr :
  entered child p fr tr = behind p (entered child [] fr tr).
Proof.
  destruct child as [| | | | | elems | cls attrs children];
    try (simpl; unfold ret, behind; now rewrite app_nil_r).
  - simpl. unfold bind, behind.
    destruct (for_each visit elems ([], enter (current fr)) tr)
      as [t [e | [found inner]]]; reflexivity.
  - destruct cls; simpl; unfold bind, behind.
    + destruct (getattr _ "name" tr) as [t [e | n]]; [reflexivity|].
      unfold ret. now rewrite app_nil_r.
    + destruct (getattr _ "name" tr) as [t [e | n]]; [reflexivity|].
      unfold ret. now rewrite app_nil_r.
    + destruct (getattr _ "name" tr) as [t [e | n]]; [reflexivity|].
      destruct (parse_element_annotations _ _ t) as [t' [e | found]];
        reflexivity.
    + destruct (parse_element_annotations _ _ tr) as [t' [e | found]];
        reflexivity.
    + destruct (parse_method_invocation _ _ tr) as [t' [e | [r|]]];
        try reflexivity.
      unfold ret. now rewrite app_nil_r.
    + unfold ret. now rewrite app_nil_r.
Qed.

Lemma descended_behind child p fr tr :
  descended child p fr tr = behind p (descended child [] fr tr).
Proof.
  destruct child as [| | | | | elems | cls attrs [|c cs]];
    try (simpl; unfold ret, behind; now rewrite app_nil_r).
  cbn [descended]. unfold bind, behind.
  destruct (for_each visit (c :: cs) ([], enter (current fr)) tr)
    as [t [e | [found inner]]]; [reflexivity|].
  destruct (pushes cls); [|reflexivity].
  destruct (pop (update fr (passed inner)) t) as [t' [e | f]]; reflexivity.
Qed.

(** A visit only appends to the records gathered before it. *)
Lemma visit_behind child p fr tr :
  visit child (p, fr) tr = behind p (visit child ([], fr) tr).
Proof.
  rewrite !visit_halves. unfold bind. rewrite entered_behind.
  destruct (entered child [] fr tr) as [t [e | [x f]]]; [reflexivity|].
  unfold behind at 1. cbv beta iota.
  rewrite (descended_behind child (p ++ x)).
  rewrite (descended_behind child x).
  destruct (descended child [] f t) as [t' [e | [y f']]]; [reflexivity|].
  simpl. now rewrite app_assoc.
Qed.

Lemma scan_behind children :
  forall p fr tr,
    for_each visit children (p, fr) tr
    = behind p (for_each visit children ([], fr) tr).
Proof.
  induction children as [|c children IH]; intros p fr tr.
  - simpl. unfold ret. now rewrite app_nil_r.
  - simpl. unfold bind. rewrite visit_behind.
    destruct (visit c ([], fr) tr) as [t [e | [x f]]]; [reflexivity|].
    unfold behind at 1. cbv beta iota. rewrite (IH (p ++ x)), (IH x).
    destruct (for_each visit children ([], f) t) as [t' [e | [y f']]];
      [reflexivity|].
    simpl. now rewrite app_assoc.
Qed.

Lemma no_package_keeps_frame (l : list value) (f : frame) :
  last_package l = None -> fold_left (fun f v => after v f) l f = f.
Proof.
  revert f. induction l as [|v l IH]; intros f N; simpl in *; [reflexivity|].
  destruct (last_package l); [discriminate N|].
  unfold after at 2. rewrite N. now apply IH.
Qed.

Lemma scan_without_package xs q tr tr1 r1 f1 :
  forallb well_formed xs = true ->
  last_package xs = None ->
  son_of_a_class xs q tr = (tr1, inr (r1, f1)) ->
  f1 = enter q.
Proof.
  intros W N E. unfold son_of_a_class in E.
  assert (f1 = fold_left (fun f v => after v f) xs (enter q)) as ->.
  { eapply scan_frames; [|exact W|exact E].
    apply Forall_forall. intros v _. apply visit_frame. }
  now apply no_package_keeps_frame.
Qed.

End Gathered.

(** X10.  The scan of a list of siblings is the scan of its parts one
    after the other: when the first part (well-formed, with no package
    declaration at its top) gives the records [r1] and the second,
    scanned under the same path from the trace the first ended with,
    gives [r2], the whole list gives [r1 ++ r2], in this order, with
    the trace and the frame of the second part. *)
Theorem scans_compose (xs ys qualifier : list value) (tr tr1 tr2 : trace)
    (r1 r2 : list record) (f1 f2 : frame) :
  forallb well_formed xs = true ->
  last_package xs = None ->
  son_of_a_class xs qualifier tr = (tr1, inr (r1, f1)) ->
  son_of_a_class ys qualifier tr1 = (tr2, inr (r2, f2)) ->
  son_of_a_class (xs ++ ys) qualifier tr = (tr2, inr (r1 ++ r2, f2)).
Proof.
  intros W N E1 E2.
  assert (f1 = enter qualifier) as ->
      by (eapply scan_without_package; eassumption).
  unfold son_of_a_class in *. rewrite for_each_app. unfold bind.
  rewrite E1, scan_behind, E2. reflexivity.
Qed.

(** The field [Samples.max_size] followed by the method
    [Samples.takePhoto], in class [Camera] of package [com.app]. *)
Lemma scans_compose_witness :
  son_of_a_class ([Samples.max_size VNone] ++ [Samples.takePhoto])
    [VStr "com.app"; VStr "Camera"] []
  = ([], inr ([Unsupported (mkUnsupportedAppUsage
                              (VStr "MAX_SIZE")
                              "com.app.Camera.MAX_SIZE -> int" false
                              (VInt 0) (VStr "Build.VERSION_CODES.P") "")]
              ++ [Requires (mkRequiresPermission
                              (VStr "takePhoto")
                              "com.app.Camera.takePhoto() -> void" true
                              ["Manifest.permission.CAMERA"] false)],
              enter [VStr "com.app"; VStr "Camera"])).
Proof.
  exact (@scans_compose [Samples.max_size VNone] [Samples.takePhoto]
           [VStr "com.app"; VStr "Camera"] [] [] [] _ _ _ _
           eq_refl eq_refl eq_refl eq_refl).
Defined.

(** X11.  The scan stops at the first error: when the siblings before
    a node are scanned and the visit of the node raises, the scan of
    the whole list raises that error with the trace of that moment; the
    records gathered before are not returned and the siblings after the
    node are not visited. *)
Theorem scan_stops_at_first_error (xs : list value) (c : value)
    (ys qualifier : list value) (tr tr1 tr2 : trace)
    (r1 : list record) (f1 : frame) (e : exn) :
  son_of_a_class xs qualifier tr = (tr1, inr (r1, f1)) ->
  visit c ([], f1) tr1 = (tr2, inl e) ->
  son_of_a_class (xs ++ c :: ys) qualifier tr = (tr2, inl e).
Proof.
  intros E1 E2. unfold son_of_a_class in *.
  eapply for_each_raises; [exact E1|].
  rewrite visit_behind, E2. reflexivity.
Qed.

(** [Samples.max_size] gives a record; the method after it, with
    [conditional = true] in its marker, raises; the call after the
    method is not reached. *)
Lemma scan_stops_at_first_error_witness :
  son_of_a_class
    ([Samples.max_size VNone]
       ++ Tree.Method VNone []
            [Tree.Annotation "RequiresPermission"
               (VList [Tree.ElementValuePair "conditional"
                         (Tree.Literal "true")])]
            VNone "takePhoto" [] (VList [])
       :: [Tree.Invocation "mContext" "enforceCallingOrSelfPermission" []])
    [VStr "com.app"; VStr "Camera"] []
  = ([], inl (AttributeError "values")).
Proof.
  exact (@scan_stops_at_first_error [Samples.max_size VNone]
           (Tree.Method VNone []
              [Tree.Annotation "RequiresPermission"
                 (VList [Tree.ElementValuePair "conditional"
                           (Tree.Literal "true")])]
              VNone "takePhoto" [] (VList []))
           [Tree.Invocation "mContext" "enforceCallingOrSelfPermission" []]
           [VStr "com.app"; VStr "Camera"] [] [] [] _ _ _
           eq_refl eq_refl).
Defined.

(** ** Nodes the scan does not name *)


(** The visit of a class: its body under the extended path. *)
Lemma class_visit (modifiers : list string)
    (annotations : list value) (documentation : value) (name : string)
    (body : list value) (partial found : list record) (fr inner : frame)
    (tr tr' : trace) :
  forallb inert annotations = true ->
  inert documentation = true ->
  forallb well_formed body = true ->
  son_of_a_class body (current fr ++ [VStr name]) tr
    = (tr', inr (found, inner)) ->
  visit (Tree.Class modifiers annotations documentation name body)
        (partial, fr) tr
  = (tr', inr (partial ++ found, fr)).
Proof.
  intros Ia Id W E.
  assert (passed inner = current fr ++ [VStr name]) as P.
  { unfold son_of_a_class in E.
    eapply inner_loop_restores; [|exact W|exact E].
    apply Forall_forall. intros v _. apply visit_frame. }
  unfold son_of_a_class in E.
  set (q := current fr ++ [VStr name]) in *.
  assert (current (push fr (VStr name)) = q) as C
      by (unfold push; apply current_update).
  assert (for_each visit
            [VSet modifiers; VList annotations; documentation; VStr name;
             VList body; VNone; VNone; VNone]
            ([], enter q) tr
          = (tr', inr (found, enter q))) as L.
  { cbn [for_each]. unfold bind at 1.
    change (visit (VSet modifiers) ([], enter q) tr)
      with (tr, @inr exn _ (@nil record, enter q)).
    cbv beta iota. unfold bind at 1.
    rewrite (visit_inert (VList annotations) Ia). unfold bind at 1.
    rewrite (visit_inert documentation Id). unfold bind at 1.
    change (visit (VStr name) ([], enter q) tr)
      with (tr, @inr exn _ (@nil record, enter q)).
    cbv beta iota. unfold bind at 1.
    assert (visit (VList body) ([], enter q) tr
            = (tr', inr (found, enter q))) as B.
    { cbn -[for_each]. unfold bind. change (current (enter q)) with q.
      rewrite E. cbn. now rewrite P. }
    rewrite B. reflexivity. }
  rewrite visit_halves. unfold bind at 1.
  change (entered (Tree.Class modifiers annotations documentation name body)
            partial fr tr)
    with (tr, @inr exn _ (partial, push fr (VStr name))).
  cbv beta iota. unfold Tree.Class. cbn [descended pushes]. rewrite C.
  unfold bind at 1. rewrite L. cbv beta iota.
  change (passed (enter q)) with q. rewrite <- C at 1.
  rewrite update_current. unfold bind. now rewrite pop_push.
Qed.

(** X13.  The visit of a class declaration whose own annotations and
    documentation the scan passes through (markers on the class itself
    are such annotations): whatever the scan of the body gives under
    the path extended by the name of the class is what the visit adds
    to the records, and the frame afterwards is the frame before. *)
Theorem class_scopes_its_body (modifiers : list string)
    (annotations : list value) (documentation : value) (name : string)
    (body : list value) (partial found : list record) (fr inner : frame)
    (tr tr' : trace) :
  forallb inert annotations = true ->
  inert documentation = true ->
  forallb well_formed body = true ->
  son_of_a_class body (current fr ++ [VStr name]) tr
    = (tr', inr (found, inner)) ->
  visit (Tree.Class modifiers annotations documentation name body)
        (partial, fr) tr
  = (tr', inr (partial ++ found, fr)).
Proof. apply class_visit. Qed.

(** The class [Camera] with a marker on the class itself and
    [Samples.takePhoto] in its body, met in package [com.app]. *)
Lemma class_scopes_its_body_witness :
  visit (Tree.Class ["public"]
           [Tree.Annotation "RequiresPermission"
              (Tree.MemberReference "Manifest.permission" "CAMERA")]
           VNone "Camera" [Samples.takePhoto])
        ([], enter [VStr "com.app"]) []
  = ([], inr ([] ++ [Requires (mkRequiresPermission
                                 (VStr "takePhoto")
                                 "com.app.Camera.takePhoto() -> void" true
                                 ["Manifest.permission.CAMERA"] false)],
              enter [VStr "com.app"])).
Proof.
  exact (@class_scopes_its_body ["public"]
           [Tree.Annotation "RequiresPermission"
              (Tree.MemberReference "Manifest.permission" "CAMERA")]
           VNone "Camera" [Samples.takePhoto] [] _
           (enter [VStr "com.app"])
           (enter [VStr "com.app"; VStr "Camera"]) [] []
           eq_refl eq_refl eq_refl eq_refl).
Defined.

(** X14.  A list of values in which the scan meets no package, class,
    method or field declaration and no method call gives no record,
    shows nothing, raises nothing and leaves the path alone: a unit
    that passes the test before parsing only because of a word in a
    comment or an import costs a walk and yields the empty list. *)
Theorem nothing_to_scan (children qualifier : list value) (tr : trace) :
  forallb inert children = true ->
  son_of_a_class children qualifier tr = (tr, inr ([], enter qualifier)).
Proof.
  intros I. unfold son_of_a_class. now apply scan_inert.
Qed.

(** A unit with two imports and an interface without members. *)
Lemma nothing_to_scan_witness :
  son_of_a_class
    [VNone;
     VList [Tree.Import "android.Manifest" false false;
            Tree.Import "android.annotation.RequiresPermission" false false];
     VList [VNode (OtherNode "InterfaceDeclaration")
              ["modifiers"; "annotations"; "documentation"; "name"; "body";
               "type_parameters"; "extends"]
              [VSet ["public"]; VList []; VNone; VStr "Marker"; VList [];
               VNone; VNone]]]
    [] []
  = ([], inr ([], enter [])).
Proof.
  exact (@nothing_to_scan
           [VNone;
            VList [Tree.Import "android.Manifest" false false;
                   Tree.Import "android.annotation.RequiresPermission"
                     false false];
            VList [VNode (OtherNode "InterfaceDeclaration")
                     ["modifiers"; "annotations"; "documentation"; "name";
                      "body"; "type_parameters"; "extends"]
                     [VSet ["public"]; VList []; VNone; VStr "Marker";
                      VList []; VNone; VNone]]]
           [] [] eq_refl).
Defined.

(** ** Bare payloads of the usage marker *)

(** X15.  The usage extractor on a marker whose payload is a bare
    value, a qualified constant or a literal, with no name before it:
    the extractor asks the value for its [name] and raises
    [AttributeError]; no record is returned. *)
Theorem bare_usage_payload_raises (element : value) (qualifier : list value)
    (marker : string) (name : value) (signature : string) (tr tr' : trace) :
  get_name_and_qualifier element qualifier tr = (tr', inr (name, signature)) ->
  (forall c,
      parse_deprecation element (Tree.Annotation marker (Payload.constant c))
                        qualifier tr
      = (tr', inl (AttributeError "name"))) /\
  (forall text,
      parse_deprecation element (Tree.Annotation marker (Tree.Literal text))
                        qualifier tr
      = (tr', inl (AttributeError "name"))).
Proof.
  intros G. split.
  - intros c. erewrite parse_deprecation_with by exact G. reflexivity.
  - intros text. erewrite parse_deprecation_with by exact G. reflexivity.
Qed.

(** [@UnsupportedAppUsage(Build.VERSION_CODES.P)] on
    [Samples.max_size]. *)
Lemma bare_usage_payload_raises_witness :
  parse_deprecation (Samples.max_size VNone)
    (Tree.Annotation "UnsupportedAppUsage"
       (Payload.constant ("Build.VERSION_CODES", "P")))
    [VStr "com.app"; VStr "Limits"] []
  = ([], inl (AttributeError "name")).
Proof.
  exact (proj1 (@bare_usage_payload_raises (Samples.max_size VNone)
                  [VStr "com.app"; VStr "Limits"] "UnsupportedAppUsage"
                  (VStr "MAX_SIZE") "com.app.Limits.MAX_SIZE -> int" [] []
                  eq_refl)
               ("Build.VERSION_CODES", "P")%string).
Defined.

(** ** Classes in classes *)

Section Nested.

Lemma nested_well_formed (classes : list string) (body : list value) :
  forallb well_formed body = true ->
  forallb well_formed (nested classes body) = true.
Proof.
  intros W. induction classes as [|n classes IH]; [exact W|].
  change (nested (n :: classes) body)
    with [Tree.Class [] [] VNone n (nested classes body)].
  cbn -[nested]. now rewrite IH.
Qed.

Lemma marked_method_visit (m : string) (c : string * string)
    (path : list string) (partial : list record) (fr : frame) (tr : trace) :
  current fr = map VStr path ->
  visit (marked_method m c) (partial, fr) tr
  = (tr, inr (partial
                ++ [Requires (mkRequiresPermission
                                (VStr m)
                                (PyStr.join "." (path ++ [m]) ++ "() -> void")
                                true [Payload.constant_name c] false)],
              fr)).
Proof.
  intros C. rewrite visit_halves. unfold bind at 1.
  assert (entered (marked_method m c) partial fr tr
          = (tr, inr (partial
                        ++ [Requires (mkRequiresPermission
                                        (VStr m)
                                        (PyStr.join "." (path ++ [m])
                                           ++ "() -> void")
                                        true [Payload.constant_name c] false)],
                      push fr (VStr m)))) as En.
  { change (entered (marked_method m c) partial fr tr)
      with (bind (parse_element_annotations (marked_method m c)
                    (current (push fr (VStr m))))
                 (fun found => ret (partial ++ found, push fr (VStr m))) tr).
    unfold push at 1. rewrite current_update, C.
    replace (map VStr path ++ [VStr m]) with (map VStr (path ++ [m]))
      by now rewrite map_app.
    erewrite bind_returns; [reflexivity|].
    erewrite single_annotation by reflexivity. rewrite annotation_requires.
    erewrite bind_returns; [reflexivity|].
    apply single_constant_run.
    exact (method_signature_run VNone [] _ m [] None (VList [])
             (path ++ [m]) tr). }
  rewrite En. cbv beta iota.
  change (descended (marked_method m c) ?p ?f tr)
    with (bind (for_each visit
                  [VNone; VSet [];
                   VList [Tree.Annotation "RequiresPermission"
                            (Payload.constant c)];
                   VNone; VNone; VStr m; VList []; VNone; VList []]
                  ([], enter (current f)))
               (fun out => let (found, inner) := out in
                           fr' <- pop (update f (passed inner)) ;;
                           ret (p ++ found, fr')) tr).
  unfold bind at 1. rewrite scan_inert by reflexivity. cbv beta iota.
  change (passed (enter ?q)) with q. rewrite update_current.
  unfold bind. rewrite pop_push. now rewrite app_nil_r.
Qed.

Lemma nested_scan (m : string) (c : string * string)
    (classes : list string) :
  forall (path : list string) (tr : trace),
    son_of_a_class (nested classes [marked_method m c]) (map VStr path) tr
    = (tr, inr ([Requires (mkRequiresPermission
                             (VStr m)
                             (PyStr.join "." (path ++ classes ++ [m])
                                ++ "() -> void")
                             true [Payload.constant_name c] false)],
                enter (map VStr path))).
Proof.
  induction classes as [|n classes IH]; intros path tr.
  - unfold son_of_a_class. cbn [nested fold_right for_each]. unfold bind.
    now rewrite (marked_method_visit m c path).
  - change (nested (n :: classes) [marked_method m c])
      with [Tree.Class [] [] VNone n (nested classes [marked_method m c])].
    unfold son_of_a_class. cbn [for_each]. unfold bind.
    erewrite class_visit.
    + reflexivity.
    + reflexivity.
    + reflexivity.
    + apply nested_well_formed. reflexivity.
    + change (current (enter (map VStr path)) ++ [VStr n])
        with (map VStr path ++ map VStr [n]).
      rewrite <- map_app, IH, <- app_assoc. reflexivity.
Qed.

End Nested.

(** X16.  A marked method [void m()] inside classes nested to any
    depth, scanned under a path: the scan gives exactly one record,
    whose signature is the path, then the names of the enclosing
    classes from the outermost in, then the name of the method, joined
    by dots, before [() -> void]; nothing is shown, and the path is the
    one the scan started with. *)
Theorem nested_classes_qualify (m : string) (c : string * string)
    (classes path : list string) (tr : trace) :
  son_of_a_class (nested classes [marked_method m c]) (map VStr path) tr
  = (tr, inr ([Requires (mkRequiresPermission
                           (VStr m)
                           (PyStr.join "." (path ++ classes ++ [m])
                              ++ "() -> void")
                           true [Payload.constant_name c] false)],
              enter (map VStr path))).
Proof. apply nested_scan. Qed.
